(** * The Program runtime of Bubble Tea (tea.go)

    A shallow embedding of the event loop, the command dispatcher, the
    public Program operations (Run, Send, Quit, Kill, ReleaseTerminal,
    RestoreTerminal, Println, Printf) and of the startup options, followed
    by the properties of the runtime that the specification states.

    Conventions of the embedding:
    - the application's Model interface is a type class over an arbitrary
      carrier [M]; Init, Update and View are total functions (a panic of
      the application is outside the embedding);
    - a [Msg] is one of the runtime's message types or an application
      value of an arbitrary type [A];
    - a [Cmd] (func() Msg) is [option (unit -> Msg)], [None] being nil;
    - the goroutines of the runtime communicate over unbuffered channels;
      what each select statement receives is given by a schedule, and the
      Program record carries, next to the fields of the Go struct, the
      state of the cancellation scope, of the channels' waiting parties,
      and the log of everything the program did, in program order. *)

From Stdlib Require Import List ZArith Bool String Lia.
Import ListNotations.

Set Implicit Arguments.
Set Warnings "-register-all".

(** ** Startup options *)

(** [type startupOptions byte]: the options are bits of one byte. *)
Definition startupOptions := Z.

Definition has (s option : startupOptions) : bool :=
  negb (Z.eqb (Z.land s option) 0).

(** [1 << iota] for the eight constants of the declaration, in order. *)
Definition withAltScreen        : startupOptions := Z.shiftl 1 0.
Definition withMouseCellMotion  : startupOptions := Z.shiftl 1 1.
Definition withMouseAllMotion   : startupOptions := Z.shiftl 1 2.
Definition withInputTTY         : startupOptions := Z.shiftl 1 3.
Definition withCustomInput      : startupOptions := Z.shiftl 1 4.
Definition withoutSignalHandler : startupOptions := Z.shiftl 1 6.
Definition withoutCatchPanics   : startupOptions := Z.shiftl 1 7.

(** ** Errors *)

(** [ErrProgramKilled] is one package-level error value; every other error
    (what a watcher puts on [p.errs], what a terminal primitive returns) is
    a different value. *)
Inductive error : Type :=
| ErrProgramKilled
| osError (description : string).

(** ** Where input is read from ([p.input]) *)

Inductive Input : Type :=
| noInput                          (* p.input == nil *)
| fileInput (isTerminal : bool)    (* an *os.File; isatty.IsTerminal(f.Fd()) *)
| readerInput (isCloser : bool).   (* any other io.Reader; is it an io.ReadCloser *)

Section Runtime.

(** The application's message values, and the handle of the external
    process of an exec message (the ExecCommand interface of exec.go). *)
Variables A ExecCommand : Type.

(** ** Messages and commands *)

(** The message types the runtime itself declares, and [appMsg] for every
    other value of the empty interface [Msg]. *)
Inductive Msg : Type :=
| quitMsg
| clearScreenMsg
| enterAltScreenMsg
| exitAltScreenMsg
| enableMouseCellMotionMsg
| enableMouseAllMotionMsg
| disableMouseMsg
| showCursorMsg
| hideCursorMsg
| execMsg (cmd : ExecCommand) (fn : option (option error -> Msg))
| batchMsg (cmds : list (option (unit -> Msg)))
| sequenceMsg (cmds : list (option (unit -> Msg)))
| printLineMessage (messageBody : string)
| repaintMsg
| WindowSizeMsg (Width Height : Z)
| appMsg (a : A).

(** [type Cmd func() Msg]; "If it's nil it's considered a no-op." *)
Definition Cmd : Type := option (unit -> Msg).

(** [func Quit() Msg], the command; [Quit] below is the method of Program. *)
Definition QuitCmd : unit -> Msg := fun _ => quitMsg.

(** ** The Model interface *)

Class Model (M : Type) : Type := {
  Init : M -> Cmd;
  Update : M -> Msg -> M * Cmd;
  View : M -> string
}.

(** ** The renderer *)

(** The methods the program calls on its renderer. *)
Inductive RendererCall : Type :=
| start
| stop
| kill
| write (frame : string)
| clearScreen
| enterAltScreen
| exitAltScreen
| enableMouseCellMotion
| enableMouseAllMotion
| disableMouseCellMotion
| disableMouseAllMotion
| showCursor
| hideCursor
| handleMessages (msg : Msg).

(** Modelled from the spec: the renderer (renderer.go and the standard
    renderer are not part of src). It "owns alt-screen/mouse/cursor
    terminal mode toggles" and answers "whether alt-screen is currently
    active"; [isStandard] tells whether the value behind the interface is a
    [*standardRenderer], which the event loop tests. *)
Record Renderer : Type := {
  altScreen : bool;
  mouseCellMotion : bool;
  mouseAllMotion : bool;
  cursorHidden : bool;
  isStandard : bool
}.

(** Modelled from the spec: what a call does to the modes the renderer
    owns. Frames, clearing and the life cycle leave the modes alone. *)
Definition perform (c : RendererCall) (r : Renderer) : Renderer :=
  match c with
  | enterAltScreen =>
      {| altScreen := true; mouseCellMotion := mouseCellMotion r;
         mouseAllMotion := mouseAllMotion r; cursorHidden := cursorHidden r;
         isStandard := isStandard r |}
  | exitAltScreen =>
      {| altScreen := false; mouseCellMotion := mouseCellMotion r;
         mouseAllMotion := mouseAllMotion r; cursorHidden := cursorHidden r;
         isStandard := isStandard r |}
  | enableMouseCellMotion =>
      {| altScreen := altScreen r; mouseCellMotion := true;
         mouseAllMotion := mouseAllMotion r; cursorHidden := cursorHidden r;
         isStandard := isStandard r |}
  | disableMouseCellMotion =>
      {| altScreen := altScreen r; mouseCellMotion := false;
         mouseAllMotion := mouseAllMotion r; cursorHidden := cursorHidden r;
         isStandard := isStandard r |}
  | enableMouseAllMotion =>
      {| altScreen := altScreen r; mouseCellMotion := mouseCellMotion r;
         mouseAllMotion := true; cursorHidden := cursorHidden r;
         isStandard := isStandard r |}
  | disableMouseAllMotion =>
      {| altScreen := altScreen r; mouseCellMotion := mouseCellMotion r;
         mouseAllMotion := false; cursorHidden := cursorHidden r;
         isStandard := isStandard r |}
  | showCursor =>
      {| altScreen := altScreen r; mouseCellMotion := mouseCellMotion r;
         mouseAllMotion := mouseAllMotion r; cursorHidden := false;
         isStandard := isStandard r |}
  | hideCursor =>
      {| altScreen := altScreen r; mouseCellMotion := mouseCellMotion r;
         mouseAllMotion := mouseAllMotion r; cursorHidden := true;
         isStandard := isStandard r |}
  | start | stop | kill | write _ | clearScreen | handleMessages _ => r
  end.

(** ** What the program does, in program order *)

Variable M : Type.
Context {model_of_M : Model M}.

(** The [go] statements of tea.go. *)
Inductive Goroutine : Type :=
| goSignals                         (* the watcher of handleSignals *)
| goInitCmd (initCmd : unit -> Msg) (* select { cmds <- initCmd; <-ctx.Done() } *)
| goResize                          (* the watchers of handleResize *)
| goCommands                        (* the loop of handleCommands *)
| goSend (msg : Msg)                (* go p.Send(msg) *)
| goSequence (cmds : list Cmd).     (* the body of case sequenceMsg *)

(** Calls into the terminal, the input reader and the operating system,
    whose code is outside src. *)
Inductive OSCall : Type :=
| openInputTTY
| rawMode                 (* initTerminal *)
| cookedMode              (* restoreTerminalState *)
| initCancelReader
| cancelReaderCancel
| cancelReaderClose
| waitForReadLoop
| inputClose
| restoreOutput
| handlersShutdown
| runProcess (cmd : ExecCommand).

Inductive Event : Type :=
| called (c : RendererCall)       (* p.renderer.c() *)
| inited (m : M)                  (* m.Init() *)
| updated (m : M) (msg : Msg)     (* m.Update(msg) *)
| viewed (m : M)                  (* m.View() *)
| queued (cmd : Cmd)              (* cmds <- cmd, taken by handleCommands *)
| spawned (g : Goroutine)         (* go ... *)
| cancelled                       (* p.cancel() *)
| sys (c : OSCall) (result : option error).

(** ** The Program *)

(** The fields of the Go struct that the modelled code reads or writes
    ([options] is the field [startupOptions]; [outputIsTerminal] tells
    whether [p.output] is a terminal; [hasRenderer] is [p.renderer != nil],
    and [renderer] is then that renderer, and otherwise the one Run will
    install; [hasRestoreOutput] is [p.restoreOutput != nil]), then the
    state of the concurrency primitives: [ctxDone] is
    [p.ctx.Err() != nil]; [receiving] holds while
    the event loop is blocked in its select, the only receiver of [p.msgs];
    [dispatching] holds while the loop of handleCommands, the only receiver
    of [cmds], has not returned. [faults] scripts the results of the
    coming fallible calls into the operating system (none left: success),
    and [trace] logs what the program did, oldest first. *)
Record Program : Type := {
  initialModel : M;
  options : startupOptions;
  input : Input;
  outputIsTerminal : bool;
  renderer : Renderer;
  hasRenderer : bool;
  hasRestoreOutput : bool;
  altScreenWasActive : bool;
  ignoreSignals : bool;
  ctxDone : bool;
  receiving : bool;
  dispatching : bool;
  faults : list (option error);
  trace : list Event
}.

Definition setInput (i : Input) (p : Program) : Program :=
  {| initialModel := initialModel p; options := options p; input := i;
     outputIsTerminal := outputIsTerminal p;
     renderer := renderer p; hasRenderer := hasRenderer p;
     hasRestoreOutput := hasRestoreOutput p; altScreenWasActive := altScreenWasActive p;
     ignoreSignals := ignoreSignals p; ctxDone := ctxDone p;
     receiving := receiving p; dispatching := dispatching p;
     faults := faults p; trace := trace p |}.

Definition setRenderer (r : Renderer) (p : Program) : Program :=
  {| initialModel := initialModel p; options := options p; input := input p;
     outputIsTerminal := outputIsTerminal p;
     renderer := r; hasRenderer := hasRenderer p;
     hasRestoreOutput := hasRestoreOutput p; altScreenWasActive := altScreenWasActive p;
     ignoreSignals := ignoreSignals p; ctxDone := ctxDone p;
     receiving := receiving p; dispatching := dispatching p;
     faults := faults p; trace := trace p |}.

Definition setHasRenderer (b : bool) (p : Program) : Program :=
  {| initialModel := initialModel p; options := options p; input := input p;
     outputIsTerminal := outputIsTerminal p;
     renderer := renderer p; hasRenderer := b;
     hasRestoreOutput := hasRestoreOutput p;
     altScreenWasActive := altScreenWasActive p;
     ignoreSignals := ignoreSignals p; ctxDone := ctxDone p;
     receiving := receiving p; dispatching := dispatching p;
     faults := faults p; trace := trace p |}.

Definition setAltScreenWasActive (b : bool) (p : Program) : Program :=
  {| initialModel := initialModel p; options := options p; input := input p;
     outputIsTerminal := outputIsTerminal p;
     renderer := renderer p; hasRenderer := hasRenderer p;
     hasRestoreOutput := hasRestoreOutput p; altScreenWasActive := b;
     ignoreSignals := ignoreSignals p; ctxDone := ctxDone p;
     receiving := receiving p; dispatching := dispatching p;
     faults := faults p; trace := trace p |}.

Definition setIgnoreSignals (b : bool) (p : Program) : Program :=
  {| initialModel := initialModel p; options := options p; input := input p;
     outputIsTerminal := outputIsTerminal p;
     renderer := renderer p; hasRenderer := hasRenderer p;
     hasRestoreOutput := hasRestoreOutput p; altScreenWasActive := altScreenWasActive p;
     ignoreSignals := b; ctxDone := ctxDone p;
     receiving := receiving p; dispatching := dispatching p;
     faults := faults p; trace := trace p |}.

Definition setCtxDone (b : bool) (p : Program) : Program :=
  {| initialModel := initialModel p; options := options p; input := input p;
     outputIsTerminal := outputIsTerminal p;
     renderer := renderer p; hasRenderer := hasRenderer p;
     hasRestoreOutput := hasRestoreOutput p; altScreenWasActive := altScreenWasActive p;
     ignoreSignals := ignoreSignals p; ctxDone := b;
     receiving := receiving p; dispatching := dispatching p;
     faults := faults p; trace := trace p |}.

Definition setReceiving (b : bool) (p : Program) : Program :=
  {| initialModel := initialModel p; options := options p; input := input p;
     outputIsTerminal := outputIsTerminal p;
     renderer := renderer p; hasRenderer := hasRenderer p;
     hasRestoreOutput := hasRestoreOutput p; altScreenWasActive := altScreenWasActive p;
     ignoreSignals := ignoreSignals p; ctxDone := ctxDone p;
     receiving := b; dispatching := dispatching p;
     faults := faults p; trace := trace p |}.

Definition setDispatching (b : bool) (p : Program) : Program :=
  {| initialModel := initialModel p; options := options p; input := input p;
     outputIsTerminal := outputIsTerminal p;
     renderer := renderer p; hasRenderer := hasRenderer p;
     hasRestoreOutput := hasRestoreOutput p; altScreenWasActive := altScreenWasActive p;
     ignoreSignals := ignoreSignals p; ctxDone := ctxDone p;
     receiving := receiving p; dispatching := b;
     faults := faults p; trace := trace p |}.

Definition setFaults (f : list (option error)) (p : Program) : Program :=
  {| initialModel := initialModel p; options := options p; input := input p;
     outputIsTerminal := outputIsTerminal p;
     renderer := renderer p; hasRenderer := hasRenderer p;
     hasRestoreOutput := hasRestoreOutput p; altScreenWasActive := altScreenWasActive p;
     ignoreSignals := ignoreSignals p; ctxDone := ctxDone p;
     receiving := receiving p; dispatching := dispatching p;
     faults := f; trace := trace p |}.

(** Append one event to the log. *)
Definition emit (e : Event) (p : Program) : Program :=
  {| initialModel := initialModel p; options := options p; input := input p;
     outputIsTerminal := outputIsTerminal p;
     renderer := renderer p; hasRenderer := hasRenderer p;
     hasRestoreOutput := hasRestoreOutput p; altScreenWasActive := altScreenWasActive p;
     ignoreSignals := ignoreSignals p; ctxDone := ctxDone p;
     receiving := receiving p; dispatching := dispatching p;
     faults := faults p; trace := trace p ++ [e] |}.

(** [p.renderer.c()] *)
Definition call (c : RendererCall) (p : Program) : Program :=
  emit (called c) (setRenderer (perform c (renderer p)) p).

(** A fallible call into the operating system: its result is the next
    entry of the script. *)
Definition syscall (c : OSCall) (p : Program) : Program * option error :=
  match faults p with
  | [] => (emit (sys c None) p, None)
  | r :: rest => (emit (sys c r) (setFaults rest p), r)
  end.

(** [p.cancel()]: the scope is done from now on, and a select that waits
    with [<-p.ctx.Done()] among its cases (the event loop's) wakes up. *)
Definition cancel (p : Program) : Program :=
  emit cancelled (setReceiving false (setCtxDone true p)).

(** [p.renderer.write(model.View())] *)
Definition render (model : M) (p : Program) : Program :=
  call (write (View model)) (emit (viewed model) p).

(** ** The terminal helpers of tty.go *)

(** Modelled from the spec: initTerminal (tty.go is not part of src), step
    (d) of Run, "enter raw/managed terminal mode", which can fail ("if
    raw-mode initialization fails, Run returns immediately with that
    error"). *)
Definition initTerminal (p : Program) : Program * option error :=
  syscall rawMode p.

(** Modelled from the spec: restoreTerminalState (tty.go is not part of
    src), which "restores the terminal to its pre-program state (for handing
    the terminal to a foreign process)": the cursor is shown, mouse capture
    and the alt-screen are left, and the terminal leaves raw mode. *)
Definition restoreTerminalState (p : Program) : Program * option error :=
  let p := call showCursor p in
  let p := call disableMouseCellMotion p in
  let p := call disableMouseAllMotion p in
  let p := if altScreen (renderer p) then call exitAltScreen p else p in
  syscall cookedMode p.

(** ** Release and restore *)

(** [func (p *Program) ReleaseTerminal() error], for a Program whose
    cancel reader is set: the one Run sets when the Program has an input,
    or RestoreTerminal. *)
Definition ReleaseTerminal (p : Program) : Program * option error :=
  let p := setIgnoreSignals true p in
  let p := emit (sys cancelReaderCancel None) p in
  let p := emit (sys waitForReadLoop None) p in
  let p := setAltScreenWasActive (altScreen (renderer p)) p in
  restoreTerminalState p.

(** [func (p *Program) RestoreTerminal() error] *)
Definition RestoreTerminal (p : Program) : Program * option error :=
  let p := setIgnoreSignals false p in
  match initTerminal p with
  | (p, Some err) => (p, Some err)
  | (p, None) =>
      match syscall initCancelReader p with
      | (p, Some err) => (p, Some err)
      | (p, None) =>
          if altScreenWasActive p
          then (call enterAltScreen p, None)
          else (* entering alt screen already causes a repaint. *)
               (emit (spawned (goSend repaintMsg)) p, None)
      end
  end.

(** Modelled from the spec: exec (exec.go is not part of src), which
    "synchronously pauses the managed rendering/input subscription, runs
    the requested external blocking process to completion with the terminal
    handed over, resumes management, then delivers the process's completion
    as a message". *)
Definition exec (cmd : ExecCommand) (fn : option (option error -> Msg))
  (p : Program) : Program :=
  let p := fst (ReleaseTerminal p) in
  let (p, err) := syscall (runProcess cmd) p in
  let p := fst (RestoreTerminal p) in
  match fn with
  | Some f => emit (spawned (goSend (f err))) p
  | None => p
  end.

(** ** The event loop *)

(** [cmds <- cmd]: the channel is unbuffered, so the send completes only
    if handleCommands is there to receive. *)
Definition queue (cmd : Cmd) (p : Program) : option Program :=
  if dispatching p then Some (emit (queued cmd) p) else None.

(** [for _, cmd := range msg { cmds <- cmd }]; the boolean tells whether
    every send completed. *)
Fixpoint queueAll (cmds : list Cmd) (p : Program) : Program * bool :=
  match cmds with
  | [] => (p, true)
  | cmd :: rest =>
      match queue cmd p with
      | Some p' => queueAll rest p'
      | None => (p, false)
      end
  end.

(** How one pass through the body of the loop ends. *)
Inductive Handled : Type :=
| leave (p : Program) (model : M) (err : option error)  (* return model, err *)
| goOn (p : Program) (model : M)                        (* next iteration *)
| blocked (p : Program) (model : M).                    (* cmds <- cmd never completes *)

(** The statements after the type switch, lines 321 to 329. *)
Definition forward (msg : Msg) (model : M) (p : Program) : Handled :=
  let p := if isStandard (renderer p) then call (handleMessages msg) p else p in
  let (model', cmd) := Update model msg in
  let p := emit (updated model msg) p in
  match queue cmd p with
  | Some p => goOn (render model' p) model'
  | None => blocked p model'
  end.

(** [case msg := <-p.msgs:], the type switch and what follows it. *)
Definition handle (msg : Msg) (model : M) (p : Program) : Handled :=
  match msg with
  | quitMsg => leave p model None
  | clearScreenMsg => forward msg model (call clearScreen p)
  | enterAltScreenMsg => forward msg model (call enterAltScreen p)
  | exitAltScreenMsg => forward msg model (call exitAltScreen p)
  | enableMouseCellMotionMsg => forward msg model (call enableMouseCellMotion p)
  | enableMouseAllMotionMsg => forward msg model (call enableMouseAllMotion p)
  | disableMouseMsg =>
      forward msg model
        (call disableMouseAllMotion (call disableMouseCellMotion p))
  | showCursorMsg => forward msg model (call showCursor p)
  | hideCursorMsg => forward msg model (call hideCursor p)
  | execMsg cmd fn => forward msg model (exec cmd fn p)
  | batchMsg cmds =>
      match queueAll cmds p with
      | (p, true) => goOn p model       (* continue *)
      | (p, false) => blocked p model
      end
  | sequenceMsg cmds => forward msg model (emit (spawned (goSequence cmds)) p)
  | printLineMessage _ | repaintMsg | WindowSizeMsg _ _ | appMsg _ =>
      forward msg model p
  end.

(** What happens around the loop, one entry at a time: another goroutine
    calls [p.Kill()]; the loop of handleCommands takes [<-p.ctx.Done()]
    and returns; or the select of the event loop takes one of its three
    cases. *)
Inductive Tick : Type :=
| tKill
| tDispatcherExit
| tCtxDone
| tErr (err : error)
| tMsg (msg : Msg).

Inductive LoopResult : Type :=
| returned (p : Program) (model : M) (err : option error)
| parked (p : Program) (model : M)     (* blocked in the select, nothing ready *)
| stuck (p : Program) (model : M)      (* blocked on cmds <- cmd for ever *)
| infeasible.                          (* a case was taken that was not ready *)

(** [func (p *Program) Kill()] *)
Definition Kill (p : Program) : Program := cancel p.

(** [func (p *Program) eventLoop(model Model, cmds chan Cmd) (Model, error)].
    When the schedule is exhausted the select takes [<-p.ctx.Done()] if the
    scope is done, and blocks otherwise. *)
Fixpoint eventLoop (p : Program) (model : M) (ticks : list Tick) : LoopResult :=
  match ticks with
  | [] =>
      if ctxDone p then returned (setReceiving false p) model None
      else parked (setReceiving true p) model
  | tKill :: rest => eventLoop (Kill p) model rest
  | tDispatcherExit :: rest =>
      if ctxDone p then eventLoop (setDispatching false p) model rest
      else infeasible
  | tCtxDone :: _ =>
      if ctxDone p then returned (setReceiving false p) model None
      else infeasible
  | tErr err :: _ => returned (setReceiving false p) model (Some err)
  | tMsg msg :: rest =>
      match handle msg model (setReceiving false p) with
      | leave p model err => returned p model err
      | goOn p model => eventLoop p model rest
      | blocked p model => stuck p model
      end
  end.

(** ** The command dispatcher and the sequence task *)

(** What the select of handleCommands takes. *)
Inductive Taken : Type :=
| takenDone                (* <-p.ctx.Done() *)
| takenCmd (cmd : Cmd).    (* cmd := <-cmds *)

(** [func (p *Program) handleCommands(cmds chan Cmd) chan struct{}]: the
    goroutines its loop starts, in order. *)
Fixpoint handleCommands (taken : list Taken) : list Goroutine :=
  match taken with
  | [] => []
  | takenDone :: _ => []
  | takenCmd None :: rest => handleCommands rest          (* continue *)
  | takenCmd (Some cmd) :: rest => goSend (cmd tt) :: handleCommands rest
  end.

(** Calling a [Cmd]: calling a nil func panics. *)
Definition invoke (cmd : Cmd) : option Msg :=
  match cmd with
  | Some f => Some (f tt)
  | None => None
  end.

Inductive TaskEnd : Type :=
| finished
| panicked.

(** The goroutine of [case sequenceMsg]: the messages it passes to
    [p.Send], in order, and how it ends. *)
Fixpoint runSequence (cmds : list Cmd) : list Msg * TaskEnd :=
  match cmds with
  | [] => ([], finished)
  | cmd :: rest =>
      match invoke cmd with
      | Some msg => let (sent, e) := runSequence rest in (msg :: sent, e)
      | None => ([], panicked)
      end
  end.

(** ** Sending on the message channel *)

(** The two communications the public operations attempt. *)
Inductive Case : Type :=
| onDone                 (* case <-p.ctx.Done(): *)
| onSend (msg : Msg).    (* case p.msgs <- msg: *)

(** A receive from the done channel can proceed once the scope is
    cancelled; a send on the unbuffered [p.msgs] can proceed when its
    receiver is waiting. *)
Definition ready (p : Program) (c : Case) : bool :=
  match c with
  | onDone => ctxDone p
  | onSend _ => receiving p
  end.

(** A select statement takes one of the cases that can proceed; the
    result lists them, and the statement blocks when there is none. A
    send statement on its own is a select of one case. *)
Definition select (cases : list Case) (p : Program) : list Case :=
  filter (ready p) cases.

(** [func (p *Program) Send(msg Msg)] *)
Definition Send (msg : Msg) (p : Program) : list Case :=
  select [onDone; onSend msg] p.

(** [func (p *Program) Quit()] *)
Definition Quit (p : Program) : list Case :=
  Send (QuitCmd tt) p.

(** The arguments of the print operations and Go's formatting of them. *)
Variable Args : Type.
Variable Sprint : Args -> string.
Variable Sprintf : string -> Args -> string.

(** [func (p *Program) Println(args ...interface{})] *)
Definition Println (args : Args) (p : Program) : list Case :=
  select [onSend (printLineMessage (Sprint args))] p.

(** [func (p *Program) Printf(template string, args ...interface{})] *)
Definition Printf (template : string) (args : Args) (p : Program) : list Case :=
  select [onSend (printLineMessage (Sprintf template args))] p.

(** ** The signal watcher *)

(** What happens around the watcher of handleSignals: its select takes
    [<-p.ctx.Done()] or [<-sig]; meanwhile the program may be released,
    restored or killed. *)
Inductive SignalTick : Type :=
| sgDone
| sgSignal
| sgRelease
| sgRestore
| sgKill.

(** Where the watcher is: in its select; returned, the deferred function
    having closed its channel; or in [p.msgs <- quitMsg{}] with no
    receiver. *)
Inductive WatcherEnd : Type :=
| stillWatching
| channelClosed
| blockedSending
| notASchedule.

(** [func (p *Program) handleSignals() chan struct{}]: the goroutine it
    starts; the messages it put on [p.msgs], and where it is when the
    schedule ends. *)
Fixpoint handleSignals (p : Program) (ticks : list SignalTick)
  : Program * list Msg * WatcherEnd :=
  match ticks with
  | [] => (p, [], stillWatching)
  | sgDone :: _ =>
      if ctxDone p then (p, [], channelClosed) else (p, [], notASchedule)
  | sgSignal :: rest =>
      if negb (ignoreSignals p) then
        match select [onSend quitMsg] p with
        | [] => (p, [], blockedSending)
        | _ :: _ => (p, [quitMsg], channelClosed)     (* return *)
        end
      else handleSignals p rest
  | sgRelease :: rest => handleSignals (fst (ReleaseTerminal p)) rest
  | sgRestore :: rest => handleSignals (fst (RestoreTerminal p)) rest
  | sgKill :: rest => handleSignals (Kill p) rest
  end.

(** ** Run *)

(** [func (p *Program) shutdown(kill bool)] *)
Definition shutdown (killed : bool) (p : Program) : Program :=
  let p :=
    if hasRenderer p
    then (if killed then call kill p else call stop p)
    else p in
  let p := fst (restoreTerminalState p) in
  if hasRestoreOutput p then fst (syscall restoreOutput p) else p.

(** The switch at the head of Run, which settles where input comes from. *)
Definition resolveInput (p : Program) : Program * option error :=
  if has (options p) withInputTTY then
    match syscall openInputTTY p with
    | (p, Some err) => (p, Some err)
    | (p, None) => (setInput (fileInput true) p, None)
    end
  else if negb (has (options p) withCustomInput) then
    match input p with
    | fileInput false =>
        match syscall openInputTTY p with
        | (p, Some err) => (p, Some err)
        | (p, None) => (setInput (fileInput true) p, None)
        end
    | _ => (p, None)
    end
  else (p, None).

(** [p.input.(io.ReadCloser)] *)
Definition isReadCloser (i : Input) : bool :=
  match i with
  | noInput => false
  | fileInput _ => true
  | readerInput c => c
  end.

(** "Honor program startup options." *)
Definition honorStartupOptions (p : Program) : Program :=
  let p :=
    if negb (Z.eqb (Z.land (options p) withAltScreen) 0)
    then call enterAltScreen p else p in
  if negb (Z.eqb (Z.land (options p) withMouseCellMotion) 0)
  then call enableMouseCellMotion p
  else if negb (Z.eqb (Z.land (options p) withMouseAllMotion) 0)
  then call enableMouseAllMotion p
  else p.

(** "Initialize the program." *)
Definition initialize (model : M) (p : Program) : Program :=
  let p := emit (inited model) p in
  match Init model with
  | Some initCmd => emit (spawned (goInitCmd initCmd)) p
  | None => p
  end.

(** "Subscribe to user input." *)
Definition subscribe (p : Program) : Program * option error :=
  match input p with
  | noInput => (p, None)
  | _ => syscall initCancelReader p
  end.

(** The deferred calls, last registered first: closing the cancel reader
    (registered once input is subscribed), closing the input (registered
    when it is an io.ReadCloser), and [p.cancel()]. *)
Definition deferred (readerOpen inputCloses : bool) (p : Program) : Program :=
  let p := if readerOpen then emit (sys cancelReaderClose None) p else p in
  let p := if inputCloses then emit (sys inputClose None) p else p in
  cancel p.

(** What the rest of the process does while Run goes on: the schedule of
    the event loop; whether [p.Kill()] is called after the loop has
    returned and before Run reads [p.ctx.Err()], or after that read; what
    [p.cancelReader.Cancel()] answers; and whether the select of the signal
    watcher takes a signal once the event loop has returned. *)
Record Schedule : Type := {
  ticks : list Tick;
  killBeforeCheck : bool;
  killAfterCheck : bool;
  cancelSucceeds : bool;
  lateSignal : bool
}.

Inductive RunResult : Type :=
| exited (p : Program) (model : M) (err : option error)  (* Run returned *)
| hung (p : Program) (model : M)                         (* Run has not returned *)
| recovered (p : Program)    (* a panic was recovered: Run returned nil, nil *)
| crashed (p : Program)      (* a panic left Run *)
| impossible.                                            (* not a schedule *)

(** A panic in Run once the event loop has returned, when no cancel reader
    is registered for closing: the deferred function of lines 384 to 391
    recovers it, unless panics are not caught, and calls [p.shutdown(true)];
    the input is closed when it is an io.ReadCloser, and [p.cancel()] is
    called. A recovered panic makes Run return the zero values. *)
Definition panicking (inputCloses : bool) (p : Program) : RunResult :=
  if has (options p) withoutCatchPanics
  then crashed (deferred false inputCloses p)
  else recovered (deferred false inputCloses (shutdown true p)).

(** Does [handlers.shutdown()] wait for ever: the watcher of handleSignals
    runs, it has taken a signal after the event loop returned, and it is
    left in its send on [p.msgs]. *)
Definition watcherBlocks (s : Schedule) (p : Program) : bool :=
  negb (has (options p) withoutSignalHandler) && lateSignal s &&
  match handleSignals p [sgSignal] with
  | (_, _, blockedSending) => true
  | _ => false
  end.

(** Lines 453 to 475: from the return of the event loop to the return of
    Run. [p.cancelReader] is set by the subscription to input, which Run
    makes only when [p.input] is not nil ([readerOpen]); without it the
    call [p.cancelReader.Cancel()] of line 465 is a call on a nil
    interface, which panics. *)
Definition finish (s : Schedule) (readerOpen inputCloses : bool)
  (p : Program) (model : M) (err : option error) : RunResult :=
  let p := if killBeforeCheck s then Kill p else p in
  let killed := ctxDone p in
  let p := if killAfterCheck s then Kill p else p in
  let err := if killed then Some ErrProgramKilled else err in
  let p := if killed then p else render model p in
  let p := cancel p in
  if readerOpen then
    let p := emit (sys cancelReaderCancel None) p in
    let p := if cancelSucceeds s then emit (sys waitForReadLoop None) p else p in
    if watcherBlocks s p then hung p model
    else
      let p := emit (sys handlersShutdown None) (setDispatching false p) in
      let p := shutdown killed p in
      exited (deferred readerOpen inputCloses p) model err
  else panicking inputCloses p.

(** How the start-up of Run ends. *)
Inductive Started : Type :=
| failed (p : Program) (model : M) (err : error)    (* Run returns model, err *)
| running (p : Program) (model : M) (readerOpen inputCloses : bool).

(** Lines 338 to 449 of Run: everything before the event loop. In
    [running], the booleans tell which deferred calls are registered. *)
Definition startup (p : Program) : Started :=
  match resolveInput p with
  | (p, Some err) => failed (deferred false false p) (initialModel p) err
  | (p, None) =>
      let inputCloses := isReadCloser (input p) in
      let p := if has (options p) withoutSignalHandler then p
               else emit (spawned goSignals) p in
      let p := setHasRenderer true p in   (* p.renderer = newRenderer(...) *)
      match initTerminal p with
      | (p, Some err) =>
          failed (deferred false inputCloses p) (initialModel p) err
      | (p, None) =>
          let p := honorStartupOptions p in
          let model := initialModel p in
          let p := initialize model p in
          let p := call start p in
          let p := render model p in
          match subscribe p with
          | (p, Some err) => failed (deferred false inputCloses p) model err
          | (p, None) =>
              let readerOpen :=
                match input p with noInput => false | _ => true end in
              let p := if outputIsTerminal p
                       then emit (spawned goResize) p else p in
              let p := emit (spawned goCommands) (setDispatching true p) in
              running p model readerOpen inputCloses
          end
      end
  end.

(** [func (p *Program) Run() (Model, error)] *)
Definition Run (p : Program) (s : Schedule) : RunResult :=
  match startup p with
  | failed p model err => exited p model (Some err)
  | running p model readerOpen inputCloses =>
      match eventLoop p model (ticks s) with
      | returned p model err => finish s readerOpen inputCloses p model err
      | parked p model => hung p model
      | stuck p model => hung p model
      | infeasible => impossible
      end
  end.

(** ** Reading the log *)

(** The calls of the transition function: the model each was made on and
    the message it was given. *)
Definition updates (t : list Event) : list (M * Msg) :=
  flat_map (fun e => match e with updated m msg => [(m, msg)] | _ => [] end) t.

(** The models the render function was applied to. *)
Definition views (t : list Event) : list M :=
  flat_map (fun e => match e with viewed m => [m] | _ => [] end) t.

(** The frames handed to the renderer. *)
Definition frames (t : list Event) : list string :=
  flat_map (fun e => match e with called (write f) => [f] | _ => [] end) t.

(** The calls made on the renderer. *)
Definition calls (t : list Event) : list RendererCall :=
  flat_map (fun e => match e with called c => [c] | _ => [] end) t.

(** The goroutines started. *)
Definition spawns (t : list Event) : list Goroutine :=
  flat_map (fun e => match e with spawned g => [g] | _ => [] end) t.

(** ** The messages of the specification *)

(** The control messages as section 3 of the specification lists them:
    "quit, clear-screen, enter/exit-alt-screen, enable-mouse-cell-motion,
    enable-mouse-all-motion, disable-mouse, show/hide-cursor, exec, batch,
    sequence, print-line, repaint". *)
Definition isControl (msg : Msg) : bool :=
  match msg with
  | WindowSizeMsg _ _ | appMsg _ => false
  | _ => true
  end.

Definition isQuit (msg : Msg) : bool :=
  match msg with quitMsg => true | _ => false end.

Definition isBatch (msg : Msg) : bool :=
  match msg with batchMsg _ => true | _ => false end.

(** The side effect of a control message, as the cases of the type switch
    apply it ([case quitMsg] and [case batchMsg] do not reach the end of
    the switch). *)
Definition sideEffect (msg : Msg) (p : Program) : Program :=
  match msg with
  | clearScreenMsg => call clearScreen p
  | enterAltScreenMsg => call enterAltScreen p
  | exitAltScreenMsg => call exitAltScreen p
  | enableMouseCellMotionMsg => call enableMouseCellMotion p
  | enableMouseAllMotionMsg => call enableMouseAllMotion p
  | disableMouseMsg => call disableMouseAllMotion (call disableMouseCellMotion p)
  | showCursorMsg => call showCursor p
  | hideCursorMsg => call hideCursor p
  | execMsg cmd fn => exec cmd fn p
  | sequenceMsg cmds => emit (spawned (goSequence cmds)) p
  | _ => p
  end.

(** What the specification says of one processed message: "invoke the
    transition function with the current Model and the message, replace the
    Model with the result, forward the returned command (possibly absent)
    to the Command Dispatcher, then invoke the render function on the new
    Model and hand the resulting text to the renderer". [std] adds the
    call by which the standard renderer sees the message first. *)
Definition transition (std : bool) (model : M) (msg : Msg) : list Event :=
  (if std then [called (handleMessages msg)] else []) ++
  [updated model msg; queued (snd (Update model msg));
   viewed (fst (Update model msg));
   called (write (View (fst (Update model msg))))].

(** The same for a sequence of messages, the Model of one invocation
    being the input of the next. *)
Fixpoint transitions (std : bool) (model : M) (msgs : list Msg) : list Event :=
  match msgs with
  | [] => []
  | msg :: rest =>
      transition std model msg ++ transitions std (fst (Update model msg)) rest
  end.

(** The invocations alone: each message with the Model it meets. *)
Fixpoint threaded (model : M) (msgs : list Msg) : list (M * Msg) :=
  match msgs with
  | [] => []
  | msg :: rest => (model, msg) :: threaded (fst (Update model msg)) rest
  end.

(** The Model after all of them. *)
Definition lastModel (model : M) (msgs : list Msg) : M :=
  fold_left (fun m msg => fst (Update m msg)) msgs model.

(** ** The life of a Program *)

Definition programOfLoop (r : LoopResult) : option Program :=
  match r with
  | returned p _ _ | parked p _ | stuck p _ => Some p
  | infeasible => None
  end.

Definition programOfRun (r : RunResult) : option Program :=
  match r with
  | exited p _ _ | hung p _ | recovered p | crashed p => Some p
  | impossible => None
  end.

Definition programOfHandled (h : Handled) : Program :=
  match h with
  | leave p _ _ | goOn p _ | blocked p _ => p
  end.

(** One operation on a Program. *)
Inductive step : Program -> Program -> Prop :=
| step_Kill p : step p (Kill p)
| step_eventLoop p model ticks p' :
    programOfLoop (eventLoop p model ticks) = Some p' -> step p p'
| step_Run p s p' :
    programOfRun (Run p s) = Some p' -> step p p'
| step_ReleaseTerminal p : step p (fst (ReleaseTerminal p))
| step_RestoreTerminal p : step p (fst (RestoreTerminal p)).

(** Any number of operations. *)
Inductive steps : Program -> Program -> Prop :=
| steps_refl p : steps p p
| steps_step p q r : steps p q -> step q r -> steps p r.

(** A Program as NewProgram makes it: the scope is not cancelled and no
    event loop is receiving yet. *)
Definition fresh (p : Program) : Prop :=
  ctxDone p = false /\ receiving p = false.

Definition reachable (p : Program) : Prop :=
  exists p0, fresh p0 /\ steps p0 p.

(** The receiver of [p.msgs] never waits once the scope is cancelled: its
    select has [<-p.ctx.Done()] among its cases. *)
Definition coherent (p : Program) : Prop :=
  ctxDone p = true -> receiving p = false.

(** A stretch of log in which the application is not called and no frame
    is written. *)
Definition quiet (t : list Event) : Prop :=
  updates t = [] /\ views t = [] /\ frames t = [].

(** [q] is [p] after such a stretch. *)
Definition quietly (p q : Program) : Prop :=
  exists t, trace q = trace p ++ t /\ quiet t.

(** The cases that end a waiting loop by themselves: the quit message and
    an error on [p.errs]. *)
Definition endsLoop (t : Tick) : bool :=
  match t with
  | tMsg quitMsg | tErr _ => true
  | _ => false
  end.

(** The dispatcher of handleCommands does not return during the
    schedule. *)
Definition dispatcherStays (ticks : list Tick) : bool :=
  forallb (fun t => match t with tDispatcherExit => false | _ => true end) ticks.

(** [p.Kill()] is called before Run reads the state of the scope, the
    event loop starting from [p0] and [model0]: before the loop starts,
    while it waits for a message, or between its return (on the quit
    message or on an error) and the read. *)
Inductive killedInTime (s : Schedule) (p0 : Program) (model0 : M) : Prop :=
| killedBeforeLoop : ctxDone p0 = true -> killedInTime s p0 model0
| killedInLoop before rest pa ma :
    ticks s = before ++ tKill :: rest ->
    eventLoop p0 model0 before = parked pa ma ->
    killedInTime s p0 model0
| killedAfterLoop before last rest pa ma :
    ticks s = before ++ last :: rest ->
    eventLoop p0 model0 before = parked pa ma ->
    endsLoop last = true ->
    killBeforeCheck s = true ->
    killedInTime s p0 model0.

(** [q] has the scope and the waiting parties of [p]. *)
Definition sameScope (p q : Program) : Prop :=
  ctxDone q = ctxDone p /\ receiving q = receiving p /\
  dispatching q = dispatching p.

(** [q] differs from [p] neither in whether a renderer is set nor in
    whether the output is to be restored. *)
Definition sameHandles (p q : Program) : Prop :=
  hasRenderer q = hasRenderer p /\ hasRestoreOutput q = hasRestoreOutput p.

(** [q] has the renderer, the calls made on it, the options and the
    initial model of [p]. *)
Definition sameTerminal (p q : Program) : Prop :=
  renderer q = renderer p /\ calls (trace q) = calls (trace p) /\
  options q = options p /\ initialModel q = initialModel p.

(** The renderer as restoreTerminalState leaves it. *)
Definition released (r : Renderer) : Renderer :=
  {| altScreen := false; mouseCellMotion := false; mouseAllMotion := false;
     cursorHidden := false; isStandard := isStandard r |}.

(** The log after the first call of [p.cancel()]. *)
Fixpoint afterCancel (t : list Event) : list Event :=
  match t with
  | [] => []
  | cancelled :: rest => rest
  | _ :: rest => afterCancel rest
  end.

(** ** The rest of tea.go *)

(** [func (p *Program) StartReturningModel() (Model, error)] *)
Definition StartReturningModel (p : Program) (s : Schedule) : RunResult :=
  Run p s.

(** [func (p *Program) Start() error]: the error of Run, when Run
    returns. *)
Definition Start (p : Program) (s : Schedule) : option (option error) :=
  match Run p s with
  | exited _ _ err => Some err
  | recovered _ => Some None
  | _ => None
  end.


(** ** More readings of the log *)

(** The commands put on [cmds]. *)
Definition queuedCmds (t : list Event) : list Cmd :=
  flat_map (fun e => match e with queued c => [c] | _ => [] end) t.

(** The models Init was called on. *)
Definition inits (t : list Event) : list M :=
  flat_map (fun e => match e with inited m => [m] | _ => [] end) t.

(** A stretch of log made of calls into the operating system only. *)
Definition osOnly (t : list Event) : Prop :=
  Forall (fun e => exists c r, e = sys c r) t.

(** [q] is [p] after such a stretch, with the same options, initial model,
    output and scope. *)
Definition osStep (p q : Program) : Prop :=
  (exists t, trace q = trace p ++ t /\ osOnly t) /\
  options q = options p /\ initialModel q = initialModel p /\
  outputIsTerminal q = outputIsTerminal p.

(** The goroutines Run starts before the event loop: the signal watcher
    unless it is disabled, the hand-over of the init command when there
    is one, the resize watchers when the output is a terminal, and the
    command dispatcher. *)
Definition startupSpawns (p : Program) : list Goroutine :=
  (if has (options p) withoutSignalHandler then [] else [goSignals]) ++
  (match Init (initialModel p) with
   | Some initCmd => [goInitCmd initCmd]
   | None => []
   end) ++
  (if outputIsTerminal p then [goResize] else []) ++
  [goCommands].

(** The calls of [stop] and [kill] on the renderer. *)
Definition lifecycle (t : list Event) : list RendererCall :=
  flat_map (fun e => match e with
                     | called stop => [stop]
                     | called kill => [kill]
                     | _ => []
                     end) t.

(** The calls into the operating system, with their results. *)
Definition syscalls (t : list Event) : list (OSCall * option error) :=
  flat_map (fun e => match e with sys c r => [(c, r)] | _ => [] end) t.

(** A stretch of log with no [stop], no [kill] and no Update. *)
Definition unstopped (t : list Event) : Prop :=
  lifecycle t = [] /\ updates t = [].

Definition unstoppedly (p q : Program) : Prop :=
  exists t, trace q = trace p ++ t /\ unstopped t.

(** The calls of Update form a chain from [model] to [last]: each is made
    on the Model the one before it returned. *)
Fixpoint chained (model : M) (us : list (M * Msg)) (last : M) : Prop :=
  match us with
  | [] => last = model
  | (m, msg) :: rest => m = model /\ chained (fst (Update m msg)) rest last
  end.

(** The Model Update returns for a logged call. *)
Definition result (u : M * Msg) : M := fst (Update (fst u) (snd u)).

(** What the log tells of the application and of the frames, in the order
    of the log: the calls of Update and of View and the frames written. *)
Definition rendering (t : list Event) : list Event :=
  filter (fun e => match e with
                   | updated _ _ | viewed _ | called (write _) => true
                   | _ => false
                   end) t.

(** What one call of Update is followed by when its Model is rendered:
    the call, View on the Model it returned, and the write of that text. *)
Definition rendered (u : M * Msg) : list Event :=
  [updated (fst u) (snd u); viewed (result u); called (write (View (result u)))].

(** The program and the Model a loop is left with. *)
Definition endOfLoop (r : LoopResult) : option (Program * M) :=
  match r with
  | returned p m _ | parked p m | stuck p m => Some (p, m)
  | infeasible => None
  end.

Definition modelOfHandled (h : Handled) : M :=
  match h with
  | leave _ m _ | goOn _ m | blocked _ m => m
  end.

Definition isBlocked (h : Handled) : bool :=
  match h with blocked _ _ => true | _ => false end.

(** Did the loop stop otherwise than blocked on [cmds <- cmd]. *)
Definition notStuck (r : LoopResult) : bool :=
  match r with returned _ _ _ | parked _ _ => true | _ => false end.

(** The results of the commands before the first nil one. *)
Fixpoint resultsUntilNil (cmds : list Cmd) : list Msg :=
  match cmds with
  | Some f :: rest => f tt :: resultsUntilNil rest
  | _ => []
  end.

(** Is no command nil. *)
Definition noneNil (cmds : list Cmd) : bool :=
  forallb (fun cmd => match cmd with Some _ => true | None => false end) cmds.

End Runtime.

Arguments quitMsg {A ExecCommand}.
Arguments clearScreenMsg {A ExecCommand}.
Arguments enterAltScreenMsg {A ExecCommand}.
Arguments exitAltScreenMsg {A ExecCommand}.
Arguments enableMouseCellMotionMsg {A ExecCommand}.
Arguments enableMouseAllMotionMsg {A ExecCommand}.
Arguments disableMouseMsg {A ExecCommand}.
Arguments showCursorMsg {A ExecCommand}.
Arguments hideCursorMsg {A ExecCommand}.
Arguments repaintMsg {A ExecCommand}.
Arguments printLineMessage {A ExecCommand} messageBody.
Arguments WindowSizeMsg {A ExecCommand} Width Height.
Arguments appMsg {A} ExecCommand a.
Arguments start {A ExecCommand}.
Arguments stop {A ExecCommand}.
Arguments kill {A ExecCommand}.
Arguments write {A ExecCommand} frame.
Arguments clearScreen {A ExecCommand}.
Arguments enterAltScreen {A ExecCommand}.
Arguments exitAltScreen {A ExecCommand}.
Arguments enableMouseCellMotion {A ExecCommand}.
Arguments enableMouseAllMotion {A ExecCommand}.
Arguments disableMouseCellMotion {A ExecCommand}.
Arguments disableMouseAllMotion {A ExecCommand}.
Arguments showCursor {A ExecCommand}.
Arguments hideCursor {A ExecCommand}.
Arguments goSignals {A ExecCommand}.
Arguments goResize {A ExecCommand}.
Arguments goCommands {A ExecCommand}.
Arguments openInputTTY {ExecCommand}.
Arguments rawMode {ExecCommand}.
Arguments cookedMode {ExecCommand}.
Arguments initCancelReader {ExecCommand}.
Arguments cancelReaderCancel {ExecCommand}.
Arguments cancelReaderClose {ExecCommand}.
Arguments waitForReadLoop {ExecCommand}.
Arguments inputClose {ExecCommand}.
Arguments restoreOutput {ExecCommand}.
Arguments handlersShutdown {ExecCommand}.
Arguments called {A ExecCommand M} c.
Arguments inited {A ExecCommand M} m.
Arguments viewed {A ExecCommand M} m.
Arguments queued {A ExecCommand M} cmd.
Arguments spawned {A ExecCommand M} g.
Arguments cancelled {A ExecCommand M}.
Arguments sys {A ExecCommand M} c result.
Arguments tKill {A ExecCommand}.
Arguments tDispatcherExit {A ExecCommand}.
Arguments tCtxDone {A ExecCommand}.
Arguments tErr {A ExecCommand} err.
Arguments onDone {A ExecCommand}.
Arguments takenDone {A ExecCommand}.
Arguments result {A ExecCommand M model_of_M} u.
Arguments rendered {A ExecCommand M model_of_M} u.
Arguments infeasible {A ExecCommand M}.
Arguments impossible {A ExecCommand M}.
Arguments recovered {A ExecCommand M} p.
Arguments crashed {A ExecCommand M} p.

(** ** A sample application: the counter of the specification's scenario *)

Module Counter.

(** The model is the count; the message "inc" increments it and every
    other message is ignored; the view prints the count. *)
#[export] Instance counter : Model string unit nat := {|
  Init := fun _ => None;
  Update := fun count msg =>
    match msg with
    | appMsg _ s => if String.eqb s "inc" then (S count, None) else (count, None)
    | _ => (count, None)
    end;
  View := fun count => String.concat "" (repeat "*"%string count)
|}.

Definition plainRenderer : Renderer :=
  {| altScreen := false; mouseCellMotion := false; mouseAllMotion := false;
     cursorHidden := false; isStandard := true |}.

(** [NewProgram(model, opts...)] with input and output on a terminal. *)
Definition NewProgram (model : nat) (opts : startupOptions)
  : Program string unit nat :=
  {| initialModel := model; options := opts; input := fileInput true;
     outputIsTerminal := true; renderer := plainRenderer;
     hasRenderer := false; hasRestoreOutput := true;
     altScreenWasActive := false; ignoreSignals := false; ctxDone := false;
     receiving := false; dispatching := false; faults := []; trace := [] |}.

Definition inc : Msg string unit := appMsg unit "inc"%string.
Definition noop : Msg string unit := appMsg unit "noop"%string.

(** The scenario of the specification: "sending ["inc","inc","noop","inc"]
    then Quit", with no Kill. *)
Definition scenario : Schedule string unit :=
  {| ticks := [tMsg inc; tMsg inc; tMsg noop; tMsg inc; tMsg quitMsg];
     killBeforeCheck := false; killAfterCheck := false;
     cancelSucceeds := true; lateSignal := false |}.



(** The program as Run leaves it. *)
Definition ran (p : Program string unit nat) (s : Schedule string unit)
  : Program string unit nat :=
  match Run p s with
  | exited p' _ _ | hung p' _ | recovered p' | crashed p' => p'
  | impossible => p
  end.

(** Operands that are strings, which Sprint writes one after the other. *)
Definition Sprint (args : list string) : string := String.concat "" args.

(** A template with no verb, for which Sprintf appends the arguments as
    extra. *)
Definition Sprintf (template : string) (args : list string) : string :=
  template ++ String.concat "" args.

(** Both mouse options at once. *)
Definition bothMouseOptions : startupOptions :=
  Z.lor withMouseCellMotion withMouseAllMotion.

(** The program as the start-up of Run leaves it. *)
Definition started (p : Program string unit nat) : Program string unit nat :=
  match startup p with
  | running p' _ _ _ => p'
  | failed p' _ _ => p'
  end.

(** The program as the event loop leaves it. *)
Definition looped (p : Program string unit nat) (model : nat)
  (ticks : list (Tick string unit)) : Program string unit nat :=
  match eventLoop p model ticks with
  | returned p' _ _ | parked p' _ | stuck p' _ => p'
  | infeasible => p
  end.

(** The size of the terminal cannot be read while the loop waits for its
    second message. *)
Definition resizeFailed : error := osError "resize".

Definition watcherError : Schedule string unit :=
  {| ticks := [tMsg inc; tErr resizeFailed];
     killBeforeCheck := false; killAfterCheck := false;
     cancelSucceeds := true; lateSignal := false |}.

(** [NewProgram(model, WithInput(nil))]: a program that reads no input. *)
Definition withoutInput (model : nat) : Program string unit nat :=
  setInput noInput (NewProgram model withCustomInput).

(** The scenario, with a signal taken by the watcher once the loop has
    returned. *)
Definition signalAfterLoop : Schedule string unit :=
  {| ticks := [tMsg inc; tMsg inc; tMsg noop; tMsg inc; tMsg quitMsg];
     killBeforeCheck := false; killAfterCheck := false;
     cancelSucceeds := true; lateSignal := true |}.

(** A call of Run during which nothing is sent to the program. *)
Definition again : Schedule string unit :=
  {| ticks := [];
     killBeforeCheck := false; killAfterCheck := false;
     cancelSucceeds := true; lateSignal := false |}.

(** A program whose next call into the operating system fails. *)
Definition failing (p : Program string unit nat) : Program string unit nat :=
  setFaults [Some (osError "not a terminal")] p.

End Counter.

(** * Properties *)

Unset Implicit Arguments.

Section Properties.

Context {A ExecCommand M : Type} {model_of_M : Model A ExecCommand M}.

Implicit Types (p : Program A ExecCommand M) (model : M).
Implicit Types (msg : Msg A ExecCommand) (cmd : Cmd A ExecCommand).

(** ** Reading the log *)

Lemma updates_app (t u : list (Event A ExecCommand M)) :
  updates (t ++ u) = updates t ++ updates u.
Proof. apply flat_map_app. Qed.

Lemma views_app (t u : list (Event A ExecCommand M)) :
  views (t ++ u) = views t ++ views u.
Proof. apply flat_map_app. Qed.

Lemma frames_app (t u : list (Event A ExecCommand M)) :
  frames (t ++ u) = frames t ++ frames u.
Proof. apply flat_map_app. Qed.

Lemma calls_app (t u : list (Event A ExecCommand M)) :
  calls (t ++ u) = calls t ++ calls u.
Proof. apply flat_map_app. Qed.

Lemma updates_transition std model msg :
  updates (transition std model msg) = [(model, msg)].
Proof. destruct std; reflexivity. Qed.

Lemma views_transition std model msg :
  views (transition std model msg) = [fst (Update model msg)].
Proof. destruct std; reflexivity. Qed.

Lemma frames_transition std model msg :
  frames (transition std model msg) = [View (fst (Update model msg))].
Proof. destruct std; reflexivity. Qed.

Lemma updates_transitions std msgs : forall model,
  updates (transitions std model msgs) = threaded model msgs.
Proof.
  induction msgs as [|msg rest IH]; intros model; simpl; [reflexivity|].
  rewrite updates_app, updates_transition, IH. reflexivity.
Qed.

Lemma views_transitions std msgs : forall model,
  views (transitions std model msgs) = map (fun x => fst (Update (fst x) (snd x))) (threaded model msgs).
Proof.
  induction msgs as [|msg rest IH]; intros model; simpl; [reflexivity|].
  rewrite views_app, views_transition, IH. reflexivity.
Qed.

Lemma frames_transitions std msgs : forall model,
  frames (transitions std model msgs) = map (@View _ _ _ model_of_M) (views (transitions std model msgs)).
Proof.
  induction msgs as [|msg rest IH]; intros model; simpl; [reflexivity|].
  rewrite frames_app, views_app, map_app, frames_transition, views_transition, IH.
  reflexivity.
Qed.

Lemma threaded_length msgs : forall model,
  List.length (threaded model msgs) = List.length msgs.
Proof.
  induction msgs as [|msg rest IH]; intros model; simpl; [reflexivity|].
  now rewrite IH.
Qed.

Lemma threaded_messages msgs : forall model,
  map snd (threaded model msgs) = msgs.
Proof.
  induction msgs as [|msg rest IH]; intros model; simpl; [reflexivity|].
  now rewrite IH.
Qed.

(** ** One pass through the loop *)

(** With the dispatcher receiving, the statements after the switch run to
    their end, and the log grows by one transition. *)
Lemma forward_goOn msg model p :
  dispatching p = true ->
  exists p',
    forward msg model p = goOn p' (fst (Update model msg)) /\
    trace p' = trace p ++ transition (isStandard (renderer p)) model msg /\
    ctxDone p' = ctxDone p /\ receiving p' = receiving p /\
    dispatching p' = true /\ renderer p' = renderer p.
Proof.
  intros Hd. unfold forward, queue, transition.
  destruct (Update model msg) as [model' cmd] eqn:HU.
  destruct (isStandard (renderer p)) eqn:Hstd; simpl; rewrite Hd;
    eexists; (split; [reflexivity|]); simpl;
    rewrite <- ?app_assoc; simpl; repeat split; try assumption; reflexivity.
Qed.

(** An application message passes the type switch untouched. *)
Lemma handle_application msg model p :
  isControl msg = false -> handle msg model p = forward msg model p.
Proof. destruct msg; simpl; intros H; try discriminate H; reflexivity. Qed.

Lemma eventLoop_application msgs : forall p model,
  ctxDone p = false -> dispatching p = true ->
  Forall (fun msg => isControl msg = false) msgs ->
  exists p',
    eventLoop p model (map (@tMsg _ _) msgs) = parked p' (lastModel model msgs) /\
    trace p' = trace p ++ transitions (isStandard (renderer p)) model msgs.
Proof.
  induction msgs as [|msg rest IH]; intros p model Hctx Hd Happ; simpl.
  - rewrite Hctx. eexists; split; [reflexivity|]. simpl. now rewrite app_nil_r.
  - inversion Happ as [|? ? Hmsg Hrest]; subst.
    rewrite handle_application by assumption.
    destruct (forward_goOn msg model (setReceiving false p) Hd)
      as (p1 & Hfw & Htr & Hc1 & _ & Hd1 & Hr1).
    rewrite Hfw.
    destruct (IH p1 (fst (Update model msg))) as (p' & Hloop & Htr');
      [now rewrite Hc1 | assumption | assumption |].
    exists p'. split; [exact Hloop|].
    rewrite Htr', Htr, Hr1. simpl. now rewrite <- app_assoc.
Qed.

(** C1. While the event loop is running (the scope is not cancelled and
    the dispatcher receives), N application messages taken from the bus
    make it invoke Update exactly N times, on these messages in their
    order, the Model returned by one invocation being the Model of the
    next; each invocation is followed by the hand-over of the command, by
    View on the new Model and by the write of that text to the renderer;
    the loop then waits for the next message with the last Model. *)
Theorem eventLoop_threads_model p model msgs :
  ctxDone p = false -> dispatching p = true ->
  Forall (fun msg => isControl msg = false) msgs ->
  exists p',
    eventLoop p model (map (@tMsg _ _) msgs) = parked p' (lastModel model msgs) /\
    trace p' = trace p ++ transitions (isStandard (renderer p)) model msgs /\
    updates (trace p') = updates (trace p) ++ threaded model msgs /\
    List.length (threaded model msgs) = List.length msgs /\
    map snd (threaded model msgs) = msgs /\
    views (trace p') =
      views (trace p) ++
      map (fun x => fst (Update (fst x) (snd x))) (threaded model msgs) /\
    frames (trace p') =
      frames (trace p) ++
      map (fun x => View (fst (Update (fst x) (snd x)))) (threaded model msgs).
Proof.
  intros Hctx Hd Happ.
  destruct (eventLoop_application msgs p model Hctx Hd Happ) as (p' & Hloop & Htr).
  exists p'. split; [exact Hloop|]. split; [exact Htr|].
  rewrite Htr, updates_app, views_app, frames_app.
  rewrite updates_transitions, frames_transitions, views_transitions, map_map.
  repeat split; auto using threaded_length, threaded_messages.
Qed.

(** ** Quiet stretches of the log *)

Lemma quietly_refl p : quietly p p.
Proof. exists []. split; [now rewrite app_nil_r | repeat split]. Qed.

Lemma quietly_trans p q r : quietly p q -> quietly q r -> quietly p r.
Proof.
  intros (t & Ht & Hu & Hv & Hf) (u & Hu' & Hu2 & Hv2 & Hf2).
  exists (t ++ u). split; [now rewrite Hu', Ht, app_assoc|].
  unfold quiet. rewrite updates_app, views_app, frames_app.
  now rewrite Hu, Hv, Hf, Hu2, Hv2, Hf2.
Qed.

Lemma quietly_cancel p : quietly p (cancel p).
Proof. exists [cancelled]. repeat split. Qed.

Lemma quietly_sys c r p : quietly p (emit (sys c r) p).
Proof. exists [sys c r]. repeat split. Qed.

Lemma quietly_spawned g p : quietly p (emit (spawned g) p).
Proof. exists [spawned g]. repeat split. Qed.

Lemma quietly_call c p :
  (forall f, c <> write f) -> quietly p (call c p).
Proof.
  intros Hc. exists [called c]. split; [reflexivity|].
  destruct c; repeat split. now elim (Hc frame).
Qed.

Lemma quietly_set p q : trace q = trace p -> quietly p q.
Proof. intros H. exists []. split; [now rewrite app_nil_r | repeat split]. Qed.

Lemma quietly_syscall c p : quietly p (fst (syscall c p)).
Proof.
  unfold syscall. destruct (faults p) as [|r rest]; simpl.
  - apply quietly_sys.
  - eapply quietly_trans; [|apply quietly_sys]. now apply quietly_set.
Qed.

Lemma quietly_restoreTerminalState p : quietly p (fst (restoreTerminalState p)).
Proof.
  unfold restoreTerminalState.
  eapply quietly_trans; [|apply quietly_syscall].
  eapply quietly_trans with (q := call disableMouseAllMotion
    (call disableMouseCellMotion (call showCursor p))).
  - repeat (eapply quietly_trans; [|apply quietly_call; discriminate]).
    apply quietly_refl.
  - destruct (altScreen _); [apply quietly_call; discriminate | apply quietly_refl].
Qed.

Lemma quietly_shutdown killed p : quietly p (shutdown killed p).
Proof.
  unfold shutdown.
  set (p1 := if hasRenderer p
             then (if killed then call kill p else call stop p) else p).
  assert (H1 : quietly p p1).
  { subst p1. destruct (hasRenderer p); [|apply quietly_refl].
    destruct killed; apply quietly_call; discriminate. }
  eapply quietly_trans; [exact H1|].
  eapply quietly_trans; [apply quietly_restoreTerminalState|].
  destruct (hasRestoreOutput _); [apply quietly_syscall | apply quietly_refl].
Qed.

Lemma quietly_deferred readerOpen inputCloses p :
  quietly p (deferred readerOpen inputCloses p).
Proof.
  unfold deferred.
  eapply quietly_trans; [|apply quietly_cancel].
  eapply quietly_trans with (q := if readerOpen then _ else _).
  - destruct readerOpen; [apply quietly_sys | apply quietly_refl].
  - destruct inputCloses; [apply quietly_sys | apply quietly_refl].
Qed.

(** The tear-down of Run, from [p.cancel()] on. *)
Lemma quietly_teardown cancels killed readerOpen inputCloses p :
  quietly p
    (deferred readerOpen inputCloses
       (shutdown killed
          (emit (sys handlersShutdown None)
             (setDispatching false
                (if cancels : bool
                 then emit (sys waitForReadLoop None)
                        (emit (sys cancelReaderCancel None) (cancel p))
                 else emit (sys cancelReaderCancel None) (cancel p)))))).
Proof.
  eapply quietly_trans; [|apply quietly_deferred].
  eapply quietly_trans; [|apply quietly_shutdown].
  eapply quietly_trans; [|apply quietly_sys].
  eapply quietly_trans; [|apply quietly_set; reflexivity].
  destruct cancels.
  - repeat (eapply quietly_trans; [|apply quietly_sys]). apply quietly_cancel.
  - repeat (eapply quietly_trans; [|apply quietly_sys]). apply quietly_cancel.
Qed.

(** ** The loop and its schedule *)

(** Whether the loop was waiting when it is given a schedule does not
    matter: taking a case ends the wait. *)
Lemma eventLoop_setReceiving ticks : forall b p model,
  eventLoop (setReceiving b p) model ticks = eventLoop p model ticks.
Proof.
  induction ticks as [|t rest IH]; intros b p model; [reflexivity|].
  destruct t; try reflexivity.
  simpl. destruct (ctxDone p); [|reflexivity].
  exact (IH b (setDispatching false p) model).
Qed.

(** A loop that waits after a schedule goes on with what comes next. *)
Lemma eventLoop_app before : forall p model p1 model1 rest,
  eventLoop p model before = parked p1 model1 ->
  eventLoop p model (before ++ rest) = eventLoop p1 model1 rest.
Proof.
  induction before as [|t more IH]; intros p model p1 model1 rest H.
  - simpl in H. destruct (ctxDone p); [discriminate|].
    injection H as <- <-. simpl. symmetry. apply eventLoop_setReceiving.
  - destruct t; simpl in H |- *.
    + now apply IH.
    + destruct (ctxDone p); [now apply IH | discriminate].
    + destruct (ctxDone p); discriminate.
    + discriminate.
    + destruct (handle msg model (setReceiving false p)); try discriminate.
      now apply IH.
Qed.

(** A waiting loop means a scope that is not cancelled. *)
Lemma eventLoop_parked ticks : forall p model p1 model1,
  eventLoop p model ticks = parked p1 model1 ->
  ctxDone p1 = false /\ receiving p1 = true.
Proof.
  induction ticks as [|t rest IH]; intros p model p1 model1 H.
  - simpl in H. destruct (ctxDone p) eqn:Hc; [discriminate|].
    injection H as <- <-. now split.
  - destruct t; simpl in H.
    + eapply IH; eassumption.
    + destruct (ctxDone p); [eapply IH; eassumption | discriminate].
    + destruct (ctxDone p); discriminate.
    + discriminate.
    + destruct (handle msg model (setReceiving false p)); try discriminate.
      eapply IH; eassumption.
Qed.

(** ** What leaves the scope alone *)

Lemma sameScope_refl p : sameScope p p.
Proof. repeat split. Qed.

Lemma sameScope_trans p q r : sameScope p q -> sameScope q r -> sameScope p r.
Proof.
  intros (H1 & H2 & H3) (H4 & H5 & H6).
  repeat split; congruence.
Qed.

Lemma sameScope_syscall c p : sameScope p (fst (syscall c p)).
Proof. unfold syscall. destruct (faults p); repeat split. Qed.

Lemma sameScope_restoreTerminalState p :
  sameScope p (fst (restoreTerminalState p)).
Proof.
  unfold restoreTerminalState.
  eapply sameScope_trans; [|apply sameScope_syscall].
  destruct (altScreen _); repeat split.
Qed.

Lemma sameScope_ReleaseTerminal p : sameScope p (fst (ReleaseTerminal p)).
Proof.
  unfold ReleaseTerminal.
  eapply sameScope_trans; [|apply sameScope_restoreTerminalState].
  repeat split.
Qed.

Lemma sameScope_RestoreTerminal p : sameScope p (fst (RestoreTerminal p)).
Proof.
  unfold RestoreTerminal, initTerminal.
  pose proof (sameScope_syscall rawMode (setIgnoreSignals false p)) as H1.
  destruct (syscall rawMode (setIgnoreSignals false p)) as [p1 [e1|]]; simpl in *.
  - exact H1.
  - pose proof (sameScope_syscall initCancelReader p1) as H2.
    destruct (syscall initCancelReader p1) as [p2 [e2|]]; simpl in *.
    + eapply sameScope_trans; eassumption.
    + eapply sameScope_trans; [exact H1|].
      eapply sameScope_trans; [exact H2|].
      destruct (altScreenWasActive p2); repeat split.
Qed.

Lemma sameScope_exec c fn p : sameScope p (exec c fn p).
Proof.
  unfold exec.
  pose proof (sameScope_ReleaseTerminal p) as H1.
  pose proof (sameScope_syscall (runProcess c) (fst (ReleaseTerminal p))) as H2.
  destruct (syscall (runProcess c) (fst (ReleaseTerminal p))) as [p2 err].
  simpl in H2.
  pose proof (sameScope_RestoreTerminal p2) as H3.
  eapply sameScope_trans; [exact H1|].
  eapply sameScope_trans; [exact H2|].
  eapply sameScope_trans; [exact H3|].
  destruct fn; repeat split.
Qed.

Lemma sameScope_sideEffect msg p : sameScope p (sideEffect msg p).
Proof. destruct msg; try (repeat split); apply sameScope_exec. Qed.

Lemma sameScope_queueAll cmds : forall p, sameScope p (fst (queueAll cmds p)).
Proof.
  induction cmds as [|cmd rest IH]; intros p; simpl; [apply sameScope_refl|].
  unfold queue. destruct (dispatching p); [|apply sameScope_refl].
  eapply sameScope_trans; [|apply IH]. repeat split.
Qed.

Lemma sameScope_forward msg model p :
  sameScope p (programOfHandled (forward msg model p)).
Proof.
  unfold forward, queue. destruct (Update model msg) as [model' cmd].
  destruct (isStandard (renderer p)); simpl;
    destruct (dispatching p); repeat split.
Qed.

(** The type switch is the side effect followed by the statements after
    the switch, except for quit and batch. *)
Lemma handle_forward msg model p :
  isQuit msg = false -> isBatch msg = false ->
  handle msg model p = forward msg model (sideEffect msg p).
Proof. destruct msg; simpl; intros Hq Hb; try discriminate; reflexivity. Qed.

Lemma sameScope_handle msg model p :
  sameScope p (programOfHandled (handle msg model p)).
Proof.
  destruct (isQuit msg) eqn:Hq; [destruct msg; try discriminate; repeat split|].
  destruct (isBatch msg) eqn:Hb.
  - destruct msg; try discriminate. simpl.
    pose proof (sameScope_queueAll cmds p) as H.
    destruct (queueAll cmds p) as [p' []]; exact H.
  - rewrite handle_forward by assumption.
    eapply sameScope_trans; [apply sameScope_sideEffect | apply sameScope_forward].
Qed.

(** Once cancelled, the scope stays cancelled through the loop, and the
    loop never waits again. *)
Lemma eventLoop_cancelled ticks : forall p model,
  ctxDone p = true ->
  match eventLoop p model ticks with
  | returned p' _ _ | stuck p' _ => ctxDone p' = true /\ receiving p' = false
  | parked _ _ => False
  | infeasible => True
  end.
Proof.
  induction ticks as [|t rest IH]; intros p model Hc; simpl.
  - rewrite Hc. now split.
  - destruct t.
    + now apply IH.
    + rewrite Hc. now apply IH.
    + rewrite Hc. now split.
    + now split.
    + pose proof (sameScope_handle msg model (setReceiving false p)) as (H1 & H2 & _).
      destruct (handle msg model (setReceiving false p)) as [q m e|q m|q m];
        simpl in H1, H2.
      * split; congruence.
      * apply IH. congruence.
      * split; congruence.
Qed.

(** ** The scope at the start of Run *)

Lemma deferred_cancelled readerOpen inputCloses p :
  ctxDone (deferred readerOpen inputCloses p) = true /\
  receiving (deferred readerOpen inputCloses p) = false.
Proof. destruct readerOpen, inputCloses; now split. Qed.

Lemma sameScope_resolveInput p : sameScope p (fst (resolveInput p)).
Proof.
  unfold resolveInput.
  pose proof (sameScope_syscall openInputTTY p) as H.
  destruct (has (options p) withInputTTY).
  - destruct (syscall openInputTTY p) as [q [e|]]; exact H.
  - destruct (negb (has (options p) withCustomInput)); [|apply sameScope_refl].
    destruct (input p) as [|[|]|]; try apply sameScope_refl.
    destruct (syscall openInputTTY p) as [q [e|]]; exact H.
Qed.

Lemma sameScope_honorStartupOptions p : sameScope p (honorStartupOptions p).
Proof.
  unfold honorStartupOptions.
  destruct (negb (Z.land (options p) withAltScreen =? 0)%Z); simpl;
    destruct (negb (Z.land (options p) withMouseCellMotion =? 0)%Z);
    try (repeat split);
    destruct (negb (Z.land (options p) withMouseAllMotion =? 0)%Z);
    repeat split.
Qed.

Lemma sameScope_initialize model p : sameScope p (initialize model p).
Proof. unfold initialize. destruct (Init model); repeat split. Qed.

Lemma sameScope_subscribe p : sameScope p (fst (subscribe p)).
Proof.
  unfold subscribe.
  destruct (input p); [apply sameScope_refl | |]; apply sameScope_syscall.
Qed.

(** The start-up either fails, and leaves the scope cancelled, or enters
    the loop with the scope as it found it and the dispatcher started. *)
Lemma startup_scope p :
  match startup p with
  | failed p' _ _ => ctxDone p' = true /\ receiving p' = false
  | running p' _ _ _ =>
      ctxDone p' = ctxDone p /\ receiving p' = receiving p /\
      dispatching p' = true
  end.
Proof.
  unfold startup.
  pose proof (sameScope_resolveInput p) as H1.
  destruct (resolveInput p) as [p1 [e1|]]; [apply deferred_cancelled|].
  simpl in H1.
  set (p2 := if has (options p1) withoutSignalHandler then p1
             else emit (spawned goSignals) p1).
  assert (H2 : sameScope p1 p2).
  { subst p2. destruct (has (options p1) withoutSignalHandler); repeat split. }
  unfold initTerminal.
  pose proof (sameScope_syscall rawMode (setHasRenderer true p2)) as H3.
  destruct (syscall rawMode (setHasRenderer true p2)) as [p3 [e3|]];
    [apply deferred_cancelled|].
  simpl in H3.
  set (p4 := render (initialModel (honorStartupOptions p3))
               (call start
                  (initialize (initialModel (honorStartupOptions p3))
                     (honorStartupOptions p3)))).
  assert (H4 : sameScope p3 p4).
  { subst p4.
    eapply sameScope_trans; [apply sameScope_honorStartupOptions|].
    eapply sameScope_trans; [apply sameScope_initialize|]. repeat split. }
  pose proof (sameScope_subscribe p4) as H5.
  destruct (subscribe p4) as [p5 [e5|]]; [apply deferred_cancelled|].
  simpl in H5.
  assert (H : sameScope p p5).
  { repeat (eapply sameScope_trans; [eassumption|]). apply sameScope_refl. }
  destruct H as (Ha & Hb & _).
  destruct (outputIsTerminal p5); simpl; repeat split; assumption.
Qed.

(** ** Quit *)

(** With no signal taken after the loop, [handlers.shutdown()] returns. *)
Lemma watcherBlocks_no_signal s p : lateSignal s = false -> watcherBlocks s p = false.
Proof.
  intros H. unfold watcherBlocks. rewrite H, andb_false_r. reflexivity.
Qed.

(** From the return of the loop to the return of Run when the scope is
    not cancelled at the check, input is subscribed and no signal is taken
    after the loop: one View of the Model, one frame. *)
Lemma finish_graceful s inputCloses p model err :
  ctxDone p = false -> killBeforeCheck s = false -> lateSignal s = false ->
  exists p' t,
    finish s true inputCloses p model err = exited p' model err /\
    trace p' = trace p ++ t /\
    updates t = [] /\ views t = [model] /\ frames t = [View model].
Proof.
  intros Hc Hk Hl. unfold finish. rewrite Hk, Hc.
  rewrite (watcherBlocks_no_signal _ _ Hl).
  set (p0 := if killAfterCheck s then Kill p else p).
  assert (H0 : quietly p p0).
  { subst p0. destruct (killAfterCheck s); [apply quietly_cancel | apply quietly_refl]. }
  destruct H0 as (t0 & Ht0 & Hu0 & Hv0 & Hf0).
  destruct (quietly_teardown (cancelSucceeds s) false true inputCloses
              (render model p0)) as (t1 & Ht1 & Hu1 & Hv1 & Hf1).
  eexists. exists (t0 ++ [viewed model; called (write (View model))] ++ t1).
  split; [reflexivity|]. split.
  - match goal with |- trace ?x = _ =>
      match type of Ht1 with trace ?y = _ => change x with y end end.
    rewrite Ht1. simpl. rewrite Ht0, <- !app_assoc. reflexivity.
  - rewrite !updates_app, !views_app, !frames_app.
    rewrite Hu0, Hv0, Hf0, Hu1, Hv1, Hf1. repeat split.
Qed.

(** The same stretch of Run when no input was subscribed: the final frame
    is written, and then the call of line 465 panics. *)
Lemma finish_without_reader s inputCloses p model err :
  ctxDone p = false -> killBeforeCheck s = false ->
  exists p' t,
    (finish s false inputCloses p model err = recovered p' \/
     finish s false inputCloses p model err = crashed p') /\
    trace p' = trace p ++ t /\
    updates t = [] /\ views t = [model] /\ frames t = [View model].
Proof.
  intros Hc Hk. unfold finish. rewrite Hk, Hc. cbv beta iota zeta.
  set (p0 := if killAfterCheck s then Kill p else p).
  assert (H0 : quietly p p0).
  { subst p0. destruct (killAfterCheck s); [apply quietly_cancel | apply quietly_refl]. }
  destruct H0 as (t0 & Ht0 & Hu0 & Hv0 & Hf0).
  set (p1 := cancel (render model p0)).
  assert (H1 : exists t1, trace p1 = trace p ++ t0 ++
                 [viewed model; called (write (View model))] ++ t1 /\
               updates t1 = [] /\ views t1 = [] /\ frames t1 = []).
  { destruct (quietly_cancel (render model p0)) as (t1 & Ht1 & Hq).
    exists t1. split; [|exact Hq]. subst p1. rewrite Ht1. simpl.
    rewrite Ht0, <- !app_assoc. reflexivity. }
  destruct H1 as (t1 & Ht1 & Hu1 & Hv1 & Hf1).
  unfold panicking. destruct (has (options p1) withoutCatchPanics).
  - destruct (quietly_deferred false inputCloses p1) as (t2 & Ht2 & Hu2 & Hv2 & Hf2).
    eexists. exists (t0 ++ [viewed model; called (write (View model))] ++ t1 ++ t2).
    split; [right; reflexivity|]. split.
    + rewrite Ht2, Ht1, <- !app_assoc. reflexivity.
    + rewrite !updates_app, !views_app, !frames_app.
      rewrite Hu0, Hv0, Hf0, Hu1, Hv1, Hf1, Hu2, Hv2, Hf2. repeat split.
  - assert (H2 : quietly p1 (deferred false inputCloses (shutdown true p1))).
    { eapply quietly_trans; [apply quietly_shutdown | apply quietly_deferred]. }
    destruct H2 as (t2 & Ht2 & Hu2 & Hv2 & Hf2).
    eexists. exists (t0 ++ [viewed model; called (write (View model))] ++ t1 ++ t2).
    split; [left; reflexivity|]. split.
    + rewrite Ht2, Ht1, <- !app_assoc. reflexivity.
    + rewrite !updates_app, !views_app, !frames_app.
      rewrite Hu0, Hv0, Hf0, Hu1, Hv1, Hf1, Hu2, Hv2, Hf2. repeat split.
Qed.

(** When input is subscribed and no signal is taken after the loop, a
    quit message ends Run as it should: the loop returns the Model it held,
    with no error and without calling Update, and Run calls View on that
    Model once, writes that one frame, and returns the Model with no
    error. *)
Lemma quit_with_input_is_graceful p s p0 model0 inputCloses before rest pa model :
  startup p = running p0 model0 true inputCloses ->
  ticks s = before ++ tMsg quitMsg :: rest ->
  eventLoop p0 model0 before = parked pa model ->
  killBeforeCheck s = false ->
  lateSignal s = false ->
  eventLoop pa model (tMsg quitMsg :: rest)
    = returned (setReceiving false pa) model None /\
  trace (setReceiving false pa) = trace pa /\
  exists p' t,
    Run p s = exited p' model None /\
    trace p' = trace pa ++ t /\
    updates t = [] /\ views t = [model] /\ frames t = [View model].
Proof.
  intros Hstart Hticks Hloop Hkill Hsig.
  split; [reflexivity|]. split; [reflexivity|].
  destruct (eventLoop_parked _ _ _ _ _ Hloop) as [Hctx _].
  destruct (finish_graceful s inputCloses (setReceiving false pa)
              model None Hctx Hkill Hsig) as (p' & t & Hfin & Htr & Hrest).
  exists p', t. split; [|split; [exact Htr | exact Hrest]].
  unfold Run. rewrite Hstart, Hticks.
  rewrite (eventLoop_app _ _ _ _ _ _ Hloop). exact Hfin.
Qed.

(** C2. A Program that has no input (WithInput(nil)), is sent application
    messages and then the quit message: the loop, which holds the Model
    the messages led to, returns that Model at once, with no error and
    without calling Update on the quit message, and Run calls View on it
    once and writes that one frame; but Run then does not return the
    Model: the call [p.cancelReader.Cancel()] panics, and Run either
    returns the zero values (the panic recovered) or is left by the
    panic. *)
Theorem quit_without_input_panics p s p0 model0 inputCloses msgs rest :
  ctxDone p = false ->
  startup p = running p0 model0 false inputCloses ->
  Forall (fun msg => isControl msg = false) msgs ->
  ticks s = map (@tMsg _ _) msgs ++ tMsg quitMsg :: rest ->
  killBeforeCheck s = false ->
  exists pa p' t,
    eventLoop p0 model0 (map (@tMsg _ _) msgs)
      = parked pa (lastModel model0 msgs) /\
    eventLoop pa (lastModel model0 msgs) (tMsg quitMsg :: rest)
      = returned (setReceiving false pa) (lastModel model0 msgs) None /\
    (Run p s = recovered p' \/ Run p s = crashed p') /\
    trace p' = trace pa ++ t /\
    updates t = [] /\
    views t = [lastModel model0 msgs] /\
    frames t = [View (lastModel model0 msgs)].
Proof.
  intros Hfresh Hstart Happ Hticks Hkill.
  pose proof (startup_scope p) as Hscope. rewrite Hstart in Hscope.
  destruct Hscope as (Hc0 & _ & Hd0). rewrite Hfresh in Hc0.
  destruct (eventLoop_application msgs p0 model0 Hc0 Hd0 Happ)
    as (pa & Hloop & _).
  destruct (eventLoop_parked _ _ _ _ _ Hloop) as [Hctx _].
  destruct (finish_without_reader s inputCloses (setReceiving false pa)
              (lastModel model0 msgs) None Hctx Hkill)
    as (p' & t & Hfin & Htr & Hrest).
  exists pa, p', t. split; [exact Hloop|]. split; [reflexivity|].
  split; [|split; [exact Htr | exact Hrest]].
  unfold Run. rewrite Hstart, Hticks.
  rewrite (eventLoop_app _ _ _ _ _ _ Hloop). exact Hfin.
Qed.

(** ** Kill *)

(** From the return of the loop to the return of Run when the scope is
    cancelled at the check, input is subscribed and no signal is taken
    after the loop: the error is ErrProgramKilled and nothing is
    rendered. *)
Lemma finish_killed s inputCloses p model err :
  ctxDone p = true \/ killBeforeCheck s = true ->
  lateSignal s = false ->
  exists p',
    finish s true inputCloses p model err
      = exited p' model (Some ErrProgramKilled) /\
    quietly p p'.
Proof.
  intros Hk Hl. unfold finish.
  rewrite (watcherBlocks_no_signal _ _ Hl).
  set (pk := if killBeforeCheck s then Kill p else p).
  assert (Hdone : ctxDone pk = true).
  { subst pk. destruct Hk as [Hc|Hb].
    - destruct (killBeforeCheck s); [reflexivity | exact Hc].
    - now rewrite Hb. }
  assert (H1 : quietly p pk).
  { subst pk. destruct (killBeforeCheck s); [apply quietly_cancel | apply quietly_refl]. }
  rewrite Hdone.
  set (p2 := if killAfterCheck s then Kill pk else pk).
  assert (H2 : quietly pk p2).
  { subst p2. destruct (killAfterCheck s); [apply quietly_cancel | apply quietly_refl]. }
  eexists. split; [reflexivity|].
  eapply quietly_trans; [exact H1|].
  eapply quietly_trans; [exact H2|].
  apply quietly_teardown.
Qed.

(** Whatever comes after the check, a scope cancelled at the check makes
    ErrProgramKilled the only error Run can return. *)
Lemma finish_killed_error s readerOpen inputCloses p model err p' model' err' :
  ctxDone p = true \/ killBeforeCheck s = true ->
  finish s readerOpen inputCloses p model err = exited p' model' err' ->
  err' = Some ErrProgramKilled.
Proof.
  intros Hk. unfold finish.
  set (pk := if killBeforeCheck s then Kill p else p).
  assert (Hdone : ctxDone pk = true).
  { subst pk. destruct Hk as [Hc|Hb].
    - destruct (killBeforeCheck s); [reflexivity | exact Hc].
    - now rewrite Hb. }
  rewrite Hdone. destruct readerOpen.
  - destruct (watcherBlocks _ _); [discriminate|]. now intros [= _ _ <-].
  - unfold panicking. destruct (has _ _); discriminate.
Qed.

(** While the dispatcher runs, no message leaves the loop stuck. *)
Lemma queueAll_sent cmds : forall p,
  dispatching p = true -> snd (queueAll cmds p) = true.
Proof.
  induction cmds as [|cmd rest IH]; intros p Hd; simpl; [reflexivity|].
  unfold queue. rewrite Hd. now apply IH.
Qed.

Lemma handle_dispatching msg model p :
  dispatching p = true -> isBlocked (handle msg model p) = false.
Proof.
  intros Hd.
  destruct (isQuit msg) eqn:Hq; [destruct msg; try discriminate; reflexivity|].
  destruct (isBatch msg) eqn:Hb.
  - destruct msg; try discriminate. simpl.
    pose proof (queueAll_sent cmds p Hd) as H.
    destruct (queueAll cmds p) as [p' []]; [reflexivity | discriminate].
  - rewrite handle_forward by assumption.
    destruct (sameScope_sideEffect msg p) as (_ & _ & Hs).
    rewrite <- Hs in Hd.
    destruct (forward_goOn msg model (sideEffect msg p) Hd) as (p' & -> & _).
    reflexivity.
Qed.

(** A loop that waits has not seen its dispatcher return. *)
Lemma eventLoop_parked_dispatching before : forall p model pa ma,
  eventLoop p model before = parked pa ma -> dispatching pa = dispatching p.
Proof.
  induction before as [|t rest IH]; intros p model pa ma H; simpl in H.
  - destruct (ctxDone p); [discriminate|]. now injection H as <- <-.
  - destruct t.
    + pose proof (eventLoop_cancelled rest (Kill p) model eq_refl) as Hc.
      rewrite H in Hc. contradiction.
    + destruct (ctxDone p) eqn:Hd; [|discriminate].
      pose proof (eventLoop_cancelled rest (setDispatching false p) model Hd) as Hc.
      rewrite H in Hc. contradiction.
    + destruct (ctxDone p); discriminate.
    + discriminate.
    + pose proof (sameScope_handle msg model (setReceiving false p)) as (_ & _ & H3).
      destruct (handle msg model (setReceiving false p)) as [q m e|q m|q m];
        try discriminate.
      simpl in H3. rewrite (IH _ _ _ _ H). exact H3.
Qed.

(** Under a cancelled scope, with the dispatcher running, the loop
    returns whatever it is given. *)
Lemma eventLoop_returns ticks : forall p model,
  ctxDone p = true -> dispatching p = true -> dispatcherStays ticks = true ->
  exists p1 model1 err, eventLoop p model ticks = returned p1 model1 err.
Proof.
  induction ticks as [|t rest IH]; intros p model Hc Hd Hs; simpl.
  - rewrite Hc. eauto.
  - destruct t; simpl in Hs; try discriminate.
    + apply IH; [reflexivity | exact Hd | exact Hs].
    + rewrite Hc. eauto.
    + eauto.
    + pose proof (sameScope_handle msg model (setReceiving false p)) as (H1 & _ & H3).
      pose proof (handle_dispatching msg model (setReceiving false p) Hd) as Hb.
      destruct (handle msg model (setReceiving false p)) as [q m e|q m|q m];
        simpl in H1, H3, Hb.
      * eauto.
      * apply IH; [congruence | congruence | exact Hs].
      * discriminate.
Qed.

(** A Kill that comes in time finds the scope cancelled at the check. *)
Lemma killedInTime_cancelled s p0 model0 p1 model err :
  eventLoop p0 model0 (ticks s) = returned p1 model err ->
  killedInTime s p0 model0 ->
  ctxDone p1 = true \/ killBeforeCheck s = true.
Proof.
  intros Hloop [Hc|before rest pa ma Hticks Hpark|before last rest pa ma _ _ _ Hb].
  - left. pose proof (eventLoop_cancelled (ticks s) p0 model0 Hc) as H.
    rewrite Hloop in H. apply H.
  - left. rewrite Hticks, (eventLoop_app _ _ _ _ _ _ Hpark) in Hloop.
    simpl in Hloop.
    pose proof (eventLoop_cancelled rest (Kill pa) ma eq_refl) as H.
    rewrite Hloop in H. apply H.
  - now right.
Qed.

(** After a Kill that comes in time, and while the dispatcher runs, the
    loop returns. *)
Lemma killedInTime_returns s p0 model0 :
  dispatching p0 = true -> dispatcherStays (ticks s) = true ->
  killedInTime s p0 model0 ->
  exists p1 model err, eventLoop p0 model0 (ticks s) = returned p1 model err.
Proof.
  intros Hd Hs [Hc|before rest pa ma Hticks Hpark|before last rest pa ma Hticks Hpark He _].
  - now apply eventLoop_returns.
  - rewrite Hticks in Hs |- *. rewrite (eventLoop_app _ _ _ _ _ _ Hpark).
    unfold dispatcherStays in Hs. rewrite forallb_app in Hs.
    apply andb_prop in Hs as [_ Hs]. simpl in Hs.
    simpl. apply eventLoop_returns; [reflexivity | | exact Hs].
    simpl. rewrite (eventLoop_parked_dispatching _ _ _ _ _ Hpark). exact Hd.
  - rewrite Hticks, (eventLoop_app _ _ _ _ _ _ Hpark).
    destruct last as [| | |e|[]]; try discriminate; simpl; eauto.
Qed.

(** Once Kill has come in time, Run returns no other error than
    ErrProgramKilled, whatever else happens. *)
Lemma killed_Run_returns_no_other_error p s p0 model0 readerOpen inputCloses p' model err :
  startup p = running p0 model0 readerOpen inputCloses ->
  killedInTime s p0 model0 ->
  Run p s = exited p' model err ->
  err = Some ErrProgramKilled.
Proof.
  intros Hstart Hkill. unfold Run. rewrite Hstart.
  destruct (eventLoop p0 model0 (ticks s)) as [p1 m1 e1| | |] eqn:Hloop;
    try discriminate.
  apply finish_killed_error.
  eapply killedInTime_cancelled; eassumption.
Qed.


(** ** The scope over the life of a Program *)

Lemma finish_cancelled s readerOpen inputCloses p model err :
  match finish s readerOpen inputCloses p model err with
  | exited p' _ _ | hung p' _ | recovered p' | crashed p' =>
      ctxDone p' = true /\ receiving p' = false
  | impossible => False
  end.
Proof.
  unfold finish. destruct readerOpen.
  - destruct (watcherBlocks _ _); [|apply deferred_cancelled].
    destruct (cancelSucceeds s); now split.
  - unfold panicking. destruct (has _ _); apply deferred_cancelled.
Qed.

(** Whatever the loop is given, no receiver waits under a cancelled
    scope when it stops. *)
Lemma eventLoop_coherent ticks : forall p model p',
  programOfLoop (eventLoop p model ticks) = Some p' -> coherent p'.
Proof.
  induction ticks as [|t rest IH]; intros p model p' H; simpl in H.
  - destruct (ctxDone p) eqn:Hc; injection H as <-; intros Hd;
      [reflexivity | simpl in Hd; congruence].
  - destruct t.
    + eapply IH; eassumption.
    + destruct (ctxDone p); [eapply IH; eassumption | discriminate].
    + destruct (ctxDone p); [|discriminate]. injection H as <-. now intros _.
    + injection H as <-. now intros _.
    + pose proof (sameScope_handle msg model (setReceiving false p)) as (_ & H2 & _).
      destruct (handle msg model (setReceiving false p)) as [q m e|q m|q m];
        simpl in H2.
      * injection H as <-. now intros _.
      * eapply IH; eassumption.
      * injection H as <-. now intros _.
Qed.

Lemma Run_coherent p s p' :
  programOfRun (Run p s) = Some p' -> coherent p'.
Proof.
  unfold Run. pose proof (startup_scope p) as Hs.
  destruct (startup p) as [q m e|q m ro ic].
  - simpl. intros H. injection H as <-. now intros _.
  - pose proof (eventLoop_coherent (ticks s) q m) as Hl.
    destruct (eventLoop q m (ticks s)) as [q' m' e'|q' m'|q' m'|]; cbn [programOfRun programOfLoop] in *.
    + pose proof (finish_cancelled s ro ic q' m' e') as Hf.
      destruct (finish s ro ic q' m' e'); try contradiction;
        simpl; intros H; injection H as <-; now intros _.
    + intros H. injection H as <-. now apply Hl.
    + intros H. injection H as <-. now apply Hl.
    + discriminate.
Qed.

Lemma Run_cancelled p s p' :
  ctxDone p = true -> programOfRun (Run p s) = Some p' -> ctxDone p' = true.
Proof.
  intros Hc. unfold Run. pose proof (startup_scope p) as Hs.
  destruct (startup p) as [q m e|q m ro ic].
  - simpl. intros H. injection H as <-. apply Hs.
  - destruct Hs as (Hq & _). rewrite Hc in Hq.
    pose proof (eventLoop_cancelled (ticks s) q m Hq) as Hl.
    destruct (eventLoop q m (ticks s)) as [q' m' e'|q' m'|q' m'|]; cbn [programOfRun programOfLoop] in *.
    + pose proof (finish_cancelled s ro ic q' m' e') as Hf.
      destruct (finish s ro ic q' m' e'); try contradiction;
        simpl; intros H; injection H as <-; apply Hf.
    + contradiction.
    + intros H. injection H as <-. apply Hl.
    + discriminate.
Qed.

Lemma step_coherent p q : coherent p -> step p q -> coherent q.
Proof.
  intros Hp Hstep. destruct Hstep as [p|p model ticks p' H|p s p' H|p|p].
  - now intros _.
  - eapply eventLoop_coherent; eassumption.
  - eapply Run_coherent; eassumption.
  - destruct (sameScope_ReleaseTerminal p) as (H1 & H2 & _).
    unfold coherent in *. rewrite H1, H2. exact Hp.
  - destruct (sameScope_RestoreTerminal p) as (H1 & H2 & _).
    unfold coherent in *. rewrite H1, H2. exact Hp.
Qed.

Lemma step_cancelled p q : ctxDone p = true -> step p q -> ctxDone q = true.
Proof.
  intros Hp Hstep. destruct Hstep as [p|p model ticks p' H|p s p' H|p|p].
  - reflexivity.
  - pose proof (eventLoop_cancelled ticks p model Hp) as Hl.
    destruct (eventLoop p model ticks); simpl in H; try discriminate;
      try contradiction; injection H as <-; apply Hl.
  - eapply Run_cancelled; eassumption.
  - destruct (sameScope_ReleaseTerminal p) as (H1 & _). now rewrite H1.
  - destruct (sameScope_RestoreTerminal p) as (H1 & _). now rewrite H1.
Qed.

Lemma steps_coherent p q : coherent p -> steps p q -> coherent q.
Proof.
  intros Hp Hsteps. induction Hsteps as [p|p q r _ IH Hstep]; [exact Hp|].
  eapply step_coherent; [apply IH; exact Hp | exact Hstep].
Qed.

Lemma steps_cancelled p q : ctxDone p = true -> steps p q -> ctxDone q = true.
Proof.
  intros Hp Hsteps. induction Hsteps as [p|p q r _ IH Hstep]; [exact Hp|].
  eapply step_cancelled; [apply IH; exact Hp | exact Hstep].
Qed.

Lemma steps_trans p q r : steps p q -> steps q r -> steps p r.
Proof.
  intros Hpq Hqr. induction Hqr as [q|q r r' _ IH Hstep]; [exact Hpq|].
  eapply steps_step; [apply IH; exact Hpq | exact Hstep].
Qed.

Lemma reachable_coherent p : reachable p -> coherent p.
Proof.
  intros (p0 & (Hc & Hr) & Hsteps).
  eapply steps_coherent; [|exact Hsteps]. intros H. congruence.
Qed.

Lemma reachable_steps p q : reachable p -> steps p q -> reachable q.
Proof.
  intros (p0 & Hfresh & H0) Hpq. exists p0. split; [exact Hfresh|].
  eapply steps_trans; eassumption.
Qed.

(** ** Sending to a terminated program *)

Lemma Send_cancelled p msg :
  coherent p -> ctxDone p = true -> Send msg p = [onDone].
Proof.
  intros Hco Hc. unfold Send, select. simpl.
  now rewrite Hc, (Hco Hc).
Qed.

(** Before Run reaches the event loop, Send blocks ("If the program hasn't
    started yet this will be a blocking operation"). *)
Lemma Send_before_start p msg : fresh p -> Send msg p = [].
Proof. intros (Hc & Hr). unfold Send, select. simpl. now rewrite Hc, Hr. Qed.

(** While the loop waits, Send hands it the message. *)
Lemma Send_while_waiting p model ticks p' model' msg :
  eventLoop p model ticks = parked p' model' -> Send msg p' = [onSend msg].
Proof.
  intros H. destruct (eventLoop_parked _ _ _ _ _ H) as (Hc & Hr).
  unfold Send, select. simpl. now rewrite Hc, Hr.
Qed.

(** C4. Once the cancellation scope of a program is done, Send of any
    message takes the case [<-p.ctx.Done()], the only one that can
    proceed: the call returns (it does not block), nothing is put on the
    bus, and Send has no error to return; and this stays so whatever is
    done with the program afterwards. *)
Theorem Send_after_termination p msg :
  reachable p -> ctxDone p = true ->
  Send msg p = [onDone] /\
  forall q, steps p q -> Send msg q = [onDone].
Proof.
  intros Hr Hc. split.
  - apply Send_cancelled; [now apply reachable_coherent | exact Hc].
  - intros q Hq. apply Send_cancelled.
    + apply reachable_coherent. eapply reachable_steps; eassumption.
    + eapply steps_cancelled; eassumption.
Qed.

Context {Args : Type} (Sprint : Args -> string).
Context (Sprintf : string -> Args -> string).

(** When Run has returned, the scope is cancelled and nothing waits on
    [p.msgs]; further calls of Kill change neither. *)
Lemma Run_exited p s p' model err :
  Run p s = exited p' model err ->
  ctxDone p' = true /\ receiving p' = false.
Proof.
  unfold Run. pose proof (startup_scope p) as Hs.
  destruct (startup p) as [q m e|q m ro ic].
  - intros H. injection H as <- _ _. exact Hs.
  - destruct (eventLoop q m (ticks s)) as [q' m' e'|q' m'|q' m'|];
      try discriminate.
    pose proof (finish_cancelled s ro ic q' m' e') as Hf.
    destruct (finish s ro ic q' m' e'); try contradiction; try discriminate.
    intros H. injection H as <- _ _. exact Hf.
Qed.

Lemma iter_Kill n p :
  ctxDone p = true -> receiving p = false ->
  ctxDone (Nat.iter n (@Kill A ExecCommand M) p) = true /\
  receiving (Nat.iter n (@Kill A ExecCommand M) p) = false.
Proof. intros Hc Hr. induction n as [|n IH]; simpl; now split. Qed.

(** C9. Println and Printf send on [p.msgs] with no other case to take.
    When the program has terminated (Run has returned), no receiver waits
    on [p.msgs] and, the event loop having returned, none will come: the
    send cannot proceed and the call does not return, where Send of any
    message returns at once by its done case; further calls of Kill change
    nothing to it. *)
Theorem Println_after_termination p s p' model err n args template :
  Run p s = exited p' model err ->
  Println Sprint args (Nat.iter n (@Kill A ExecCommand M) p') = [] /\
  Printf Sprintf template args (Nat.iter n (@Kill A ExecCommand M) p') = [] /\
  forall msg, Send msg (Nat.iter n (@Kill A ExecCommand M) p') = [onDone].
Proof.
  intros Hrun. destruct (Run_exited p s p' model err Hrun) as (Hc & Hr).
  destruct (iter_Kill n p' Hc Hr) as (Hcn & Hrn).
  unfold Println, Printf, Send, select. simpl. rewrite Hcn, Hrn.
  repeat split.
Qed.

(** ** Nil commands *)

(** The dispatcher starts one goroutine for each command that is not nil,
    and nothing for a nil one. *)
Lemma handleCommands_skips_nil (cmds : list (Cmd A ExecCommand)) :
  handleCommands (map (@takenCmd _ _) cmds) =
  flat_map (fun cmd => match cmd with
                       | Some f => [goSend (f tt)]
                       | None => []
                       end) cmds.
Proof.
  induction cmds as [|[f|] rest IH]; simpl; [reflexivity| |exact IH].
  now rewrite IH.
Qed.

(** A sequence of commands none of which is nil sends the result of each,
    in order. *)
Lemma runSequence_all (fs : list (unit -> Msg A ExecCommand)) :
  runSequence (map Some fs) = (map (fun f => f tt) fs, finished).
Proof.
  induction fs as [|f rest IH]; simpl; [reflexivity|]. now rewrite IH.
Qed.

(** C5. The dispatcher discards a nil command where it meets one: it
    starts nothing for it and goes on with the next. The task of a
    sequence does not: the event loop hands it the commands of the message
    as they are, it calls each, and at the first nil command it panics,
    after the results of the commands before it, the commands after it
    never being run. *)
Theorem sequence_calls_nil_command
  (taken : list (Taken A ExecCommand))
  (before : list (unit -> Msg A ExecCommand))
  (rest : list (Cmd A ExecCommand)) model p :
  handleCommands (takenCmd None :: taken) = handleCommands taken /\
  handle (sequenceMsg (map Some before ++ None :: rest)) model p =
    forward (sequenceMsg (map Some before ++ None :: rest)) model
      (emit (spawned (goSequence (map Some before ++ None :: rest))) p) /\
  runSequence (map Some before ++ None :: rest) =
    (map (fun f => f tt) before, panicked).
Proof.
  split; [reflexivity|]. split; [reflexivity|].
  induction before as [|f more IH]; simpl; [reflexivity|]. now rewrite IH.
Qed.

(** ** Control messages and the transition function *)

Lemma quietly_ReleaseTerminal p : quietly p (fst (ReleaseTerminal p)).
Proof.
  unfold ReleaseTerminal.
  eapply quietly_trans; [|apply quietly_restoreTerminalState].
  eapply quietly_trans; [|apply quietly_set; reflexivity].
  eapply quietly_trans; [|apply quietly_sys].
  eapply quietly_trans; [|apply quietly_sys].
  apply quietly_set; reflexivity.
Qed.

Lemma quietly_RestoreTerminal p : quietly p (fst (RestoreTerminal p)).
Proof.
  unfold RestoreTerminal, initTerminal.
  pose proof (quietly_syscall rawMode (setIgnoreSignals false p)) as H1.
  assert (H0 : quietly p (setIgnoreSignals false p)) by (apply quietly_set; reflexivity).
  destruct (syscall rawMode (setIgnoreSignals false p)) as [p1 [e1|]]; simpl in *.
  - eapply quietly_trans; eassumption.
  - pose proof (quietly_syscall initCancelReader p1) as H2.
    destruct (syscall initCancelReader p1) as [p2 [e2|]]; simpl in *.
    + eapply quietly_trans; [exact H0|]. eapply quietly_trans; [exact H1 | exact H2].
    + eapply quietly_trans; [exact H0|].
      eapply quietly_trans; [exact H1|]. eapply quietly_trans; [exact H2|].
      destruct (altScreenWasActive p2); simpl;
        [apply quietly_call; discriminate | apply quietly_spawned].
Qed.

Lemma quietly_exec c fn p : quietly p (exec c fn p).
Proof.
  unfold exec.
  pose proof (quietly_ReleaseTerminal p) as H1.
  pose proof (quietly_syscall (runProcess c) (fst (ReleaseTerminal p))) as H2.
  destruct (syscall (runProcess c) (fst (ReleaseTerminal p))) as [p2 err].
  simpl in H2.
  pose proof (quietly_RestoreTerminal p2) as H3.
  eapply quietly_trans; [exact H1|]. eapply quietly_trans; [exact H2|].
  eapply quietly_trans; [exact H3|].
  destruct fn; [apply quietly_spawned | apply quietly_refl].
Qed.

(** The side effect of a control message calls neither Update nor View
    and writes no frame. *)
Lemma quietly_sideEffect msg p : quietly p (sideEffect msg p).
Proof.
  destruct msg; simpl; try apply quietly_refl;
    try (apply quietly_call; discriminate).
  - eapply quietly_trans; apply quietly_call; discriminate.
  - apply quietly_exec.
  - apply quietly_spawned.
Qed.

Lemma queueAll_dispatching cmds : forall p,
  dispatching p = true ->
  exists p',
    queueAll cmds p = (p', true) /\
    trace p' = trace p ++ map (@queued _ _ _) cmds.
Proof.
  induction cmds as [|cmd rest IH]; intros p Hd; simpl.
  - exists p. now rewrite app_nil_r.
  - unfold queue. rewrite Hd.
    destruct (IH (emit (queued cmd) p) Hd) as (p' & H1 & H2).
    exists p'. split; [exact H1|]. rewrite H2. simpl. now rewrite <- app_assoc.
Qed.

(** C6, amended. For every message other than quit and batch, so for every
    other control message, the event loop first applies the side effect of
    the message, in which the application is not called, and then calls
    Update on this same message, hands over the command and renders the
    new Model. A batch message is not forwarded: its commands are handed
    to the dispatcher and the loop takes the next message, with the Model
    unchanged and no call of Update or View. *)
Theorem control_messages_but_batch_are_forwarded msg model p :
  dispatching p = true ->
  (isQuit msg = false -> isBatch msg = false ->
   exists p' t,
     handle msg model p = goOn p' (fst (Update model msg)) /\
     trace (sideEffect msg p) = trace p ++ t /\ quiet t /\
     trace p' =
       (trace p ++ t) ++
       transition (isStandard (renderer (sideEffect msg p))) model msg) /\
  (forall cmds, msg = batchMsg cmds ->
   exists p',
     handle msg model p = goOn p' model /\
     trace p' = trace p ++ map (@queued _ _ _) cmds).
Proof.
  intros Hd. split.
  - intros Hq Hb. rewrite handle_forward by assumption.
    destruct (sameScope_sideEffect msg p) as (_ & _ & Hd').
    rewrite Hd in Hd'.
    destruct (forward_goOn msg model (sideEffect msg p) Hd')
      as (p' & Hfw & Htr & _).
    destruct (quietly_sideEffect msg p) as (t & Ht & Hquiet).
    exists p', t. split; [exact Hfw|]. split; [exact Ht|]. split; [exact Hquiet|].
    now rewrite <- Ht.
  - intros cmds ->. simpl.
    destruct (queueAll_dispatching cmds p Hd) as (p' & H1 & H2).
    exists p'. now rewrite H1.
Qed.

(** ** Release and restore *)

Lemma syscall_renderer c p : renderer (fst (syscall c p)) = renderer p.
Proof. unfold syscall. now destruct (faults p). Qed.

Lemma syscall_altScreenWasActive c p :
  altScreenWasActive (fst (syscall c p)) = altScreenWasActive p.
Proof. unfold syscall. now destruct (faults p). Qed.

(** A call into the operating system that succeeds. *)
Lemma syscall_ok c p :
  (forall q, syscall c p = (q, None) ->
     trace q = trace p ++ [sys c None] /\ renderer q = renderer p /\
     altScreenWasActive q = altScreenWasActive p) /\
  (snd (syscall c p) = None -> trace (fst (syscall c p)) = trace p ++ [sys c None]).
Proof.
  unfold syscall. destruct (faults p) as [|[e|] rest]; simpl; split;
    try discriminate; intros; try reflexivity.
  - injection H as <-. repeat split.
  - injection H as <-. repeat split.
Qed.

Lemma restoreTerminalState_renderer p :
  renderer (fst (restoreTerminalState p)) = released (renderer p).
Proof.
  unfold restoreTerminalState. rewrite syscall_renderer.
  destruct (renderer p) as [alt cell all hidden std] eqn:Hr.
  simpl. rewrite Hr. destruct alt; simpl; rewrite Hr; reflexivity.
Qed.

Lemma ReleaseTerminal_renderer p :
  renderer (fst (ReleaseTerminal p)) = released (renderer p).
Proof. unfold ReleaseTerminal. now rewrite restoreTerminalState_renderer. Qed.

Lemma ReleaseTerminal_altScreenWasActive p :
  altScreenWasActive (fst (ReleaseTerminal p)) = altScreen (renderer p).
Proof.
  unfold ReleaseTerminal, restoreTerminalState.
  rewrite syscall_altScreenWasActive.
  match goal with |- context [if ?b then _ else _] => destruct b end; reflexivity.
Qed.

(** RestoreTerminal touches no mouse mode. *)
Lemma RestoreTerminal_mouse p :
  mouseCellMotion (renderer (fst (RestoreTerminal p))) = mouseCellMotion (renderer p) /\
  mouseAllMotion (renderer (fst (RestoreTerminal p))) = mouseAllMotion (renderer p).
Proof.
  unfold RestoreTerminal, initTerminal.
  pose proof (syscall_renderer rawMode (setIgnoreSignals false p)) as H1.
  destruct (syscall rawMode (setIgnoreSignals false p)) as [p1 [e1|]]; simpl in *.
  - now rewrite H1.
  - pose proof (syscall_renderer initCancelReader p1) as H2.
    destruct (syscall initCancelReader p1) as [p2 [e2|]]; simpl in *.
    + now rewrite H2, H1.
    + destruct (altScreenWasActive p2); simpl; now rewrite H2, H1.
Qed.

(** The alt-screen does come back, with a re-entry, or else a repaint is
    requested. *)
Lemma release_restore_alt_screen p p1 p2 :
  ReleaseTerminal p = (p1, None) ->
  RestoreTerminal p1 = (p2, None) ->
  altScreen (renderer p2) = altScreen (renderer p) /\
  exists t,
    trace p2 = trace p1 ++ t /\
    if altScreen (renderer p)
    then In enterAltScreen (calls t) /\ ~ In (goSend repaintMsg) (spawns t)
    else ~ In enterAltScreen (calls t) /\ In (goSend repaintMsg) (spawns t).
Proof.
  intros Hrel Hres.
  pose proof (ReleaseTerminal_renderer p) as Hr.
  pose proof (ReleaseTerminal_altScreenWasActive p) as Hw.
  rewrite Hrel in Hr, Hw. simpl in Hr, Hw.
  revert Hres. unfold RestoreTerminal, initTerminal.
  destruct (syscall_ok rawMode (setIgnoreSignals false p1)) as [H1 _].
  destruct (syscall rawMode (setIgnoreSignals false p1)) as [q1 [e1|]];
    [discriminate|].
  destruct (H1 q1 eq_refl) as (Ht1 & Hr1 & Hw1).
  destruct (syscall_ok initCancelReader q1) as [H2 _].
  destruct (syscall initCancelReader q1) as [q2 [e2|]]; [discriminate|].
  destruct (H2 q2 eq_refl) as (Ht2 & Hr2 & Hw2).
  simpl in Ht1, Hr1, Hw1.
  rewrite Hw2, Hw1, Hw.
  destruct (altScreen (renderer p)); intros H; injection H as <-; simpl.
  - split; [reflexivity|]. exists [sys rawMode None; sys initCancelReader None; called enterAltScreen].
    split; [|simpl; split; [now left | now intros []]].
    rewrite Ht2, Ht1, <- !app_assoc. reflexivity.
  - rewrite Hr2, Hr1, Hr. split; [reflexivity|].
    exists [sys rawMode None; sys initCancelReader None; spawned (goSend repaintMsg)].
    split; [|simpl; split; [now intros [] | now left]].
    rewrite Ht2, Ht1, <- !app_assoc. reflexivity.
Qed.

(** C7. ReleaseTerminal followed by RestoreTerminal does not bring the
    mouse mode back: whatever it was before the release, and whatever the
    two calls return, cell-motion and all-motion are both off afterwards,
    RestoreTerminal enabling neither. *)
Theorem release_restore_loses_mouse_mode p :
  mouseCellMotion (renderer (fst (RestoreTerminal (fst (ReleaseTerminal p))))) = false /\
  mouseAllMotion (renderer (fst (RestoreTerminal (fst (ReleaseTerminal p))))) = false.
Proof.
  destruct (RestoreTerminal_mouse (fst (ReleaseTerminal p))) as [-> ->].
  now rewrite ReleaseTerminal_renderer.
Qed.

(** ** Startup options *)

Lemma sameTerminal_refl p : sameTerminal p p.
Proof. repeat split. Qed.

Lemma sameTerminal_trans p q r :
  sameTerminal p q -> sameTerminal q r -> sameTerminal p r.
Proof.
  intros (H1 & H2 & H3 & H4) (H5 & H6 & H7 & H8). repeat split; congruence.
Qed.

Lemma sameTerminal_syscall c p : sameTerminal p (fst (syscall c p)).
Proof.
  unfold syscall. destruct (faults p); repeat split; simpl;
    rewrite calls_app; simpl; now rewrite app_nil_r.
Qed.

Lemma sameTerminal_emit e p :
  (forall c, e <> called c) -> sameTerminal p (emit e p).
Proof.
  intros He. repeat split. simpl. rewrite calls_app.
  destruct e; simpl; try now rewrite app_nil_r. now elim (He c).
Qed.

Lemma sameTerminal_resolveInput p : sameTerminal p (fst (resolveInput p)).
Proof.
  unfold resolveInput.
  pose proof (sameTerminal_syscall openInputTTY p) as H.
  destruct (has (options p) withInputTTY).
  - destruct (syscall openInputTTY p) as [q [e|]]; exact H.
  - destruct (negb (has (options p) withCustomInput)); [|apply sameTerminal_refl].
    destruct (input p) as [|[|]|]; try apply sameTerminal_refl.
    destruct (syscall openInputTTY p) as [q [e|]]; exact H.
Qed.

Lemma sameTerminal_subscribe p : sameTerminal p (fst (subscribe p)).
Proof.
  unfold subscribe.
  destruct (input p); [apply sameTerminal_refl | |]; apply sameTerminal_syscall.
Qed.

(** What "Honor program startup options" calls when both mouse options
    are set. *)
Lemma honorStartupOptions_both p :
  has (options p) withMouseCellMotion = true ->
  calls (trace (honorStartupOptions p)) =
    calls (trace p) ++
    (if has (options p) withAltScreen then [enterAltScreen] else []) ++
    [enableMouseCellMotion] /\
  mouseCellMotion (renderer (honorStartupOptions p)) = true /\
  mouseAllMotion (renderer (honorStartupOptions p)) = mouseAllMotion (renderer p) /\
  options (honorStartupOptions p) = options p /\
  initialModel (honorStartupOptions p) = initialModel p.
Proof.
  unfold honorStartupOptions, has. intros Hcell.
  destruct (negb (Z.land (options p) withAltScreen =? 0)%Z); simpl;
    rewrite Hcell; simpl; rewrite !calls_app; simpl;
    rewrite ?app_nil_r, <- ?app_assoc; repeat split.
Qed.

(** The calls Run makes on the renderer before the event loop, when the
    cell-motion option is set. *)
Lemma startup_calls p p0 model0 readerOpen inputCloses :
  has (options p) withMouseCellMotion = true ->
  startup p = running p0 model0 readerOpen inputCloses ->
  calls (trace p0) =
    calls (trace p) ++
    (if has (options p) withAltScreen then [enterAltScreen] else []) ++
    [enableMouseCellMotion; start; write (View (initialModel p))] /\
  mouseCellMotion (renderer p0) = true /\
  mouseAllMotion (renderer p0) = mouseAllMotion (renderer p).
Proof.
  intros Hcell. unfold startup.
  pose proof (sameTerminal_resolveInput p) as H1.
  destruct (resolveInput p) as [p1 [e1|]]; [discriminate|]. simpl in H1.
  set (p2 := if has (options p1) withoutSignalHandler then p1
             else emit (spawned goSignals) p1).
  assert (H2 : sameTerminal p1 p2).
  { subst p2. destruct (has (options p1) withoutSignalHandler);
      [apply sameTerminal_refl | apply sameTerminal_emit; discriminate]. }
  unfold initTerminal.
  pose proof (sameTerminal_syscall rawMode (setHasRenderer true p2)) as H3.
  destruct (syscall rawMode (setHasRenderer true p2)) as [p3 [e3|]];
    [discriminate|]. simpl in H3.
  assert (H : sameTerminal p p3).
  { eapply sameTerminal_trans; [exact H1|].
    eapply sameTerminal_trans; [exact H2|].
    eapply sameTerminal_trans; [|exact H3]. repeat split. }
  destruct H as (Hr & Hcalls & Hopts & Hinit).
  assert (Hcell3 : has (options p3) withMouseCellMotion = true) by now rewrite Hopts.
  destruct (honorStartupOptions_both p3 Hcell3) as (Hc4 & Hm4 & Ha4 & Ho4 & Hi4).
  set (p4 := honorStartupOptions p3) in *.
  set (p5 := render (initialModel p4) (call start (initialize (initialModel p4) p4))).
  assert (H5 : calls (trace p5) =
               calls (trace p4) ++ [start; write (View (initialModel p4))] /\
               renderer p5 = renderer p4).
  { subst p5. unfold initialize. destruct (Init (initialModel p4)); simpl;
      rewrite !calls_app; simpl; rewrite ?app_nil_r, <- ?app_assoc; now split. }
  destruct H5 as (Hc5 & Hr5).
  pose proof (sameTerminal_subscribe p5) as H6.
  destruct (subscribe p5) as [p6 [e6|]]; [discriminate|]. simpl in H6.
  destruct H6 as (Hr6 & Hc6 & _ & _).
  intros Hrun.
  assert (Hp0 : renderer p0 = renderer p6 /\ calls (trace p0) = calls (trace p6)).
  { injection Hrun as <- _ _ _.
    destruct (outputIsTerminal p6); simpl; rewrite !calls_app; simpl;
      rewrite ?app_nil_r; now split. }
  destruct Hp0 as (Hr0 & Hc0).
  rewrite Hc0, Hc6, Hc5, Hc4, Hcalls, Hopts, Hi4, Hinit, Hr0, Hr6, Hr5, Hm4, Ha4, Hr.
  rewrite <- !app_assoc. repeat split.
Qed.

(** C8. When both mouse options are requested, Run enables cell-motion
    and does not call the renderer's enableMouseAllMotion: the calls on
    the renderer up to the event loop are the entry of the alt-screen, if
    requested, enableMouseCellMotion, start and the first frame, so the
    cell-motion mode is on and the all-motion mode is as it was. *)
Theorem cell_motion_takes_precedence p :
  has (options p) withMouseCellMotion = true ->
  has (options p) withMouseAllMotion = true ->
  (calls (trace (honorStartupOptions p)) =
     calls (trace p) ++
     (if has (options p) withAltScreen then [enterAltScreen] else []) ++
     [enableMouseCellMotion] /\
   mouseCellMotion (renderer (honorStartupOptions p)) = true /\
   mouseAllMotion (renderer (honorStartupOptions p)) = mouseAllMotion (renderer p)) /\
  forall p0 model0 readerOpen inputCloses,
    startup p = running p0 model0 readerOpen inputCloses ->
    calls (trace p0) =
      calls (trace p) ++
      (if has (options p) withAltScreen then [enterAltScreen] else []) ++
      [enableMouseCellMotion; start; write (View (initialModel p))] /\
    mouseCellMotion (renderer p0) = true /\
    mouseAllMotion (renderer p0) = mouseAllMotion (renderer p).
Proof.
  intros Hcell _. split.
  - destruct (honorStartupOptions_both p Hcell) as (H1 & H2 & H3 & _).
    repeat split; assumption.
  - intros p0 model0 readerOpen inputCloses Hrun.
    exact (startup_calls p p0 model0 readerOpen inputCloses Hcell Hrun).
Qed.

(** ** Disabling the mouse *)

(** C10. One disable-mouse message makes the event loop call both
    disableMouseCellMotion and disableMouseAllMotion on the renderer, in
    this order and before anything else, whatever the mouse mode was; both
    modes are off afterwards. *)
Theorem disableMouse_disables_both model p :
  exists t,
    trace (programOfHandled (handle disableMouseMsg model p)) =
      trace p ++
      called disableMouseCellMotion :: called disableMouseAllMotion :: t /\
    mouseCellMotion (renderer (programOfHandled (handle disableMouseMsg model p))) = false /\
    mouseAllMotion (renderer (programOfHandled (handle disableMouseMsg model p))) = false.
Proof.
  unfold handle, forward, queue.
  destruct (Update model disableMouseMsg) as [model' cmd].
  destruct (isStandard (renderer p)) eqn:Hstd; simpl; rewrite Hstd; simpl;
    destruct (dispatching p); simpl;
    (eexists; split; [rewrite <- !app_assoc; reflexivity | now split]).
Qed.

(** * Further properties of tea.go *)

(** ** The option bits *)


(** ** The log of the event loop *)

Lemma lifecycle_app (t u : list (Event A ExecCommand M)) :
  lifecycle (t ++ u) = lifecycle t ++ lifecycle u.
Proof. apply flat_map_app. Qed.

Lemma queuedCmds_app (t u : list (Event A ExecCommand M)) :
  queuedCmds (t ++ u) = queuedCmds t ++ queuedCmds u.
Proof. apply flat_map_app. Qed.

Lemma syscalls_app (t u : list (Event A ExecCommand M)) :
  syscalls (t ++ u) = syscalls t ++ syscalls u.
Proof. apply flat_map_app. Qed.

Lemma chained_app model us mid vs last :
  chained model us mid -> chained mid vs last -> chained model (us ++ vs) last.
Proof.
  revert model. induction us as [|[m msg] rest IH]; intros model H1 H2; simpl in *.
  - now subst mid.
  - destruct H1 as (-> & H1). split; [reflexivity|]. now apply IH.
Qed.

(** What the statements after the switch add to the log. *)
Lemma forward_log msg model p :
  exists t,
    trace (programOfHandled (forward msg model p)) = trace p ++ t /\
    updates t = [(model, msg)] /\
    modelOfHandled (forward msg model p) = fst (Update model msg) /\
    isBlocked (forward msg model p) = negb (dispatching p) /\
    (dispatching p = true ->
       views t = [fst (Update model msg)] /\
       frames t = [View (fst (Update model msg))] /\
       rendering t = rendered (model, msg)) /\
    (dispatching p = false -> views t = [] /\ frames t = []).
Proof.
  unfold forward, queue, rendered, result.
  destruct (Update model msg) as [model' cmd] eqn:HU.
  destruct (isStandard (renderer p)); simpl;
    destruct (dispatching p); simpl;
    (eexists; split; [rewrite <- ?app_assoc; reflexivity|]);
    repeat split; try discriminate; simpl; rewrite ?HU; reflexivity.
Qed.

Lemma rendering_app (t u : list (Event A ExecCommand M)) :
  rendering (t ++ u) = rendering t ++ rendering u.
Proof. apply filter_app. Qed.

(** A quiet stretch of the log tells nothing of the application. *)
Lemma quiet_rendering (t : list (Event A ExecCommand M)) :
  quiet t -> rendering t = [].
Proof.
  induction t as [|e t IH]; intros (Hu & Hv & Hf); [reflexivity|].
  destruct e as [c| | | | | | |]; simpl in *; try discriminate;
    try (apply IH; repeat split; assumption).
  destruct c; simpl in *; try discriminate; apply IH; repeat split; assumption.
Qed.

Lemma queueAll_log cmds : forall p,
  exists t,
    trace (fst (queueAll cmds p)) = trace p ++ t /\ quiet t /\
    lifecycle t = [] /\
    (snd (queueAll cmds p) = true -> queuedCmds t = cmds).
Proof.
  induction cmds as [|cmd rest IH]; intros p; simpl.
  - exists []. rewrite app_nil_r. repeat split.
  - unfold queue. destruct (dispatching p).
    + destruct (IH (emit (queued cmd) p)) as (t & Ht & (Hu & Hv & Hf) & Hl & Hq).
      exists (queued cmd :: t). simpl in Ht. rewrite <- app_assoc in Ht.
      split; [exact Ht|]. repeat split; try assumption.
      intros H. simpl. now rewrite (Hq H).
    + exists []. rewrite app_nil_r. repeat split. discriminate.
Qed.

(** One pass through the body of the loop: its calls of Update continue
    the chain, and unless the pass blocks, each is followed by View on the
    Model it returned and by the write of that text. *)
Lemma handle_log msg model p :
  exists t,
    trace (programOfHandled (handle msg model p)) = trace p ++ t /\
    chained model (updates t) (modelOfHandled (handle msg model p)) /\
    (isBlocked (handle msg model p) = false ->
       views t = map result (updates t) /\
       frames t = map (@View _ _ _ model_of_M) (views t) /\
       rendering t = flat_map rendered (updates t)).
Proof.
  destruct (isQuit msg) eqn:Hq.
  { destruct msg; try discriminate. exists []. simpl. rewrite app_nil_r.
    repeat split. }
  destruct (isBatch msg) eqn:Hb.
  { destruct msg; try discriminate. simpl.
    destruct (queueAll_log cmds p) as (t & Ht & Hquiet & _).
    pose proof (quiet_rendering t Hquiet) as Hr.
    destruct Hquiet as (Hu & Hv & Hf).
    exists t. destruct (queueAll cmds p) as [q []]; simpl in *;
      rewrite Hu, Hv, Hf, Hr; repeat split; assumption. }
  rewrite handle_forward by assumption.
  destruct (quietly_sideEffect msg p) as (t1 & Ht1 & Hquiet).
  pose proof (quiet_rendering t1 Hquiet) as Hr1.
  destruct Hquiet as (Hu1 & Hv1 & Hf1).
  destruct (forward_log msg model (sideEffect msg p))
    as (t2 & Ht2 & Hu2 & Hm2 & Hb2 & Hon & Hoff).
  exists (t1 ++ t2). split; [now rewrite Ht2, Ht1, app_assoc|].
  rewrite updates_app, views_app, frames_app, rendering_app,
    Hu1, Hv1, Hf1, Hr1, Hu2, Hm2. simpl.
  split; [now split|].
  intros Hnb. rewrite Hb2 in Hnb. apply negb_false_iff in Hnb.
  destruct (Hon Hnb) as (-> & -> & ->). repeat split.
Qed.

Lemma eventLoop_log ticks : forall p model,
  match eventLoop p model ticks with
  | returned p' model' _ | parked p' model' =>
      exists t,
        trace p' = trace p ++ t /\
        chained model (updates t) model' /\
        views t = map result (updates t) /\
        frames t = map (@View _ _ _ model_of_M) (views t) /\
        rendering t = flat_map rendered (updates t)
  | stuck p' model' =>
      exists t, trace p' = trace p ++ t /\ chained model (updates t) model'
  | infeasible => True
  end.
Proof.
  induction ticks as [|tick rest IH]; intros p model; simpl.
  - destruct (ctxDone p); exists []; simpl; rewrite app_nil_r; repeat split.
  - destruct tick.
    + specialize (IH (Kill p) model).
      destruct (eventLoop (Kill p) model rest); try exact I;
        destruct IH as (t & Ht & Hrest); exists (cancelled :: t);
        simpl in Ht; rewrite <- app_assoc in Ht; (split; [exact Ht|]);
        exact Hrest.
    + destruct (ctxDone p); [|exact I]. exact (IH (setDispatching false p) model).
    + destruct (ctxDone p); [|exact I].
      exists []. simpl. rewrite app_nil_r. repeat split.
    + exists []. simpl. rewrite app_nil_r. repeat split.
    + destruct (handle_log msg model (setReceiving false p)) as (t & Ht & Hch & Hv).
      destruct (handle msg model (setReceiving false p)) as [q m e|q m|q m];
        simpl in Ht, Hch, Hv.
      * destruct (Hv eq_refl) as (Hv1 & Hf1 & Hr1). exists t. repeat split; assumption.
      * destruct (Hv eq_refl) as (Hv1 & Hf1 & Hr1). specialize (IH q m).
        destruct (eventLoop q m rest); try exact I;
          destruct IH as (u & Hu & Hrest); exists (t ++ u);
          (split; [now rewrite Hu, Ht, app_assoc|]);
          rewrite updates_app.
        -- destruct Hrest as (Hc & Hv2 & Hf2 & Hr2).
           rewrite views_app, frames_app, rendering_app, flat_map_app, !map_app,
             Hv1, Hf1, Hv2, Hf2, Hv1, Hv2, Hr1, Hr2.
           split; [eapply chained_app; eassumption | repeat split].
        -- destruct Hrest as (Hc & Hv2 & Hf2 & Hr2).
           rewrite views_app, frames_app, rendering_app, flat_map_app, !map_app,
             Hv1, Hf1, Hv2, Hf2, Hv1, Hv2, Hr1, Hr2.
           split; [eapply chained_app; eassumption | repeat split].
        -- eapply chained_app; eassumption.
      * exists t. now split.
Qed.

(** X2. Whatever the schedule (messages of any kind, kills, errors), the
    calls of Update the event loop makes form one chain: the first is made
    on the Model the loop was given, each next one on the Model the one
    before returned, and the Model the loop ends with is the one the last
    call returned. *)
Theorem eventLoop_updates_chain p model ticks p' model' :
  endOfLoop (eventLoop p model ticks) = Some (p', model') ->
  exists t,
    trace p' = trace p ++ t /\
    chained model (updates t) model'.
Proof.
  intros H. pose proof (eventLoop_log ticks p model) as Hlog.
  destruct (eventLoop p model ticks); simpl in H; try discriminate;
    injection H as <- <-; destruct Hlog as (t & Ht & Hc & _) || destruct Hlog as (t & Ht & Hc);
    exists t; now split.
Qed.

(** X3. Whatever the schedule, when the loop returns or waits, what the
    log tells of the application and of the frames is, in this order and
    for each call of Update in turn: the call of Update, then View on the
    Model that call returned, then the write of the text View gave. So
    View is called once after every call of Update and before the next,
    on the Model that call returned; the frames written are the texts of
    these views; the loop renders nothing else and skips no render. *)
Theorem eventLoop_renders_every_update p model ticks p' model' :
  notStuck (eventLoop p model ticks) = true ->
  endOfLoop (eventLoop p model ticks) = Some (p', model') ->
  exists t,
    trace p' = trace p ++ t /\
    rendering t = flat_map rendered (updates t) /\
    views t = map result (updates t) /\
    frames t = map (@View _ _ _ model_of_M) (views t).
Proof.
  intros Hns H. pose proof (eventLoop_log ticks p model) as Hlog.
  destruct (eventLoop p model ticks); simpl in H, Hns; try discriminate;
    injection H as <- <-; destruct Hlog as (t & Ht & _ & Hv & Hf & Hr);
    exists t; repeat split; assumption.
Qed.

(** X4. The hand-over of a command has no alternative: once handleCommands
    has returned, a message that reaches Update leaves the loop blocked on
    [cmds <- cmd] after the call of Update, with the new Model never
    rendered, whatever comes next. *)
Theorem loop_blocks_without_dispatcher p model msg rest :
  dispatching p = false -> isQuit msg = false -> isBatch msg = false ->
  exists p' t,
    eventLoop p model (tMsg msg :: rest) = stuck p' (fst (Update model msg)) /\
    trace p' = trace p ++ t /\
    updates t = [(model, msg)] /\ views t = [] /\ frames t = [].
Proof.
  intros Hd Hq Hb. simpl. rewrite handle_forward by assumption.
  destruct (sameScope_sideEffect msg (setReceiving false p)) as (_ & _ & Hd').
  simpl in Hd'. rewrite Hd in Hd'.
  destruct (quietly_sideEffect msg (setReceiving false p))
    as (t1 & Ht1 & Hu1 & Hv1 & Hf1).
  destruct (forward_log msg model (sideEffect msg (setReceiving false p)))
    as (t2 & Ht2 & Hu2 & Hm2 & Hb2 & _ & Hoff).
  destruct (Hoff Hd') as (Hv2 & Hf2). rewrite Hd' in Hb2.
  destruct (forward msg model (sideEffect msg (setReceiving false p)))
    as [q m e|q m|q m]; try discriminate.
  simpl in Ht2, Hm2. subst m.
  exists q, (t1 ++ t2). split; [reflexivity|].
  split; [now rewrite Ht2, Ht1, app_assoc|].
  rewrite updates_app, views_app, frames_app, Hu1, Hv1, Hf1, Hu2, Hv2, Hf2.
  repeat split.
Qed.

(** X5. What follows a quit message or an error in the schedule is never
    processed: the loop ends the same way whatever comes after. *)
Theorem nothing_is_processed_after_the_end before : forall p model err rest rest',
  eventLoop p model (before ++ tMsg quitMsg :: rest)
    = eventLoop p model (before ++ tMsg quitMsg :: rest') /\
  eventLoop p model (before ++ tErr err :: rest)
    = eventLoop p model (before ++ tErr err :: rest').
Proof.
  induction before as [|t more IH]; intros p model err rest rest'.
  - split; reflexivity.
  - destruct t; simpl.
    + apply IH.
    + destruct (ctxDone p); [apply IH | now split].
    + now split.
    + now split.
    + destruct (handle msg model (setReceiving false p)); [now split | apply IH | now split].
Qed.

(** X6. An error a watcher puts on [p.errs] while the loop waits ends the
    loop with the current Model; in a Program that reads input, when no
    Kill comes before Run reads the state of the scope and the signal
    watcher takes no signal after the loop, Run still renders that Model
    once and returns it with this error, which Start returns too. *)
Theorem infrastructure_error_is_returned
  p s p0 model0 inputCloses before rest pa model err :
  startup p = running p0 model0 true inputCloses ->
  ticks s = before ++ tErr err :: rest ->
  eventLoop p0 model0 before = parked pa model ->
  killBeforeCheck s = false ->
  lateSignal s = false ->
  exists p' t,
    Run p s = exited p' model (Some err) /\
    Start p s = Some (Some err) /\
    trace p' = trace pa ++ t /\
    updates t = [] /\ views t = [model] /\ frames t = [View model].
Proof.
  intros Hstart Hticks Hloop Hkill Hsig.
  destruct (eventLoop_parked _ _ _ _ _ Hloop) as [Hctx _].
  destruct (finish_graceful s inputCloses (setReceiving false pa)
              model (Some err) Hctx Hkill Hsig) as (p' & t & Hfin & Htr & Hrest).
  assert (HR : Run p s = exited p' model (Some err)).
  { unfold Run. rewrite Hstart, Hticks.
    rewrite (eventLoop_app _ _ _ _ _ _ Hloop). exact Hfin. }
  exists p', t. split; [exact HR|]. split; [unfold Start; now rewrite HR|].
  split; [exact Htr | exact Hrest].
Qed.

(** X7. A Program runs once: Run cancels the scope before it returns, so
    a second Run on the same Program, once its start-up has succeeded,
    returns no other error than ErrProgramKilled; and it does return it
    when the Program reads input, the dispatcher of commands does not
    return before the loop and the signal watcher takes no signal after
    it. *)
Theorem Run_cannot_be_repeated
  p s p' model err s' p0 model0 readerOpen inputCloses :
  Run p s = exited p' model err ->
  startup p' = running p0 model0 readerOpen inputCloses ->
  (forall p'' model' err',
     Run p' s' = exited p'' model' err' -> err' = Some ErrProgramKilled) /\
  (readerOpen = true -> dispatcherStays (ticks s') = true ->
   lateSignal s' = false ->
   exists p'' model', Run p' s' = exited p'' model' (Some ErrProgramKilled)).
Proof.
  intros H1 Hstart.
  destruct (Run_exited p s p' model err H1) as (Hc & _).
  pose proof (startup_scope p') as Hs. rewrite Hstart in Hs.
  destruct Hs as (Hc0 & _ & Hd0). rewrite Hc in Hc0.
  assert (Hk : killedInTime s' p0 model0) by now apply killedBeforeLoop.
  split.
  - intros p'' model' err'.
    eapply killed_Run_returns_no_other_error; eassumption.
  - intros -> Hstay Hsig.
    destruct (killedInTime_returns s' p0 model0 Hd0 Hstay Hk)
      as (q & m & e & Hloop).
    pose proof (killedInTime_cancelled s' p0 model0 q m e Hloop Hk) as Hq.
    destruct (finish_killed s' inputCloses q m e Hq Hsig) as (q' & Hfin & _).
    exists q', m. unfold Run. now rewrite Hstart, Hloop.
Qed.

(** ** shutdown and the failures of the start-up *)

Lemma unstoppedly_refl p : unstoppedly p p.
Proof. exists []. split; [now rewrite app_nil_r | now split]. Qed.

Lemma unstoppedly_trans p q r :
  unstoppedly p q -> unstoppedly q r -> unstoppedly p r.
Proof.
  intros (t & Ht & Hl & Hu) (u & Hu' & Hl2 & Hu2).
  exists (t ++ u). split; [now rewrite Hu', Ht, app_assoc|].
  unfold unstopped. rewrite lifecycle_app, updates_app.
  now rewrite Hl, Hu, Hl2, Hu2.
Qed.

Lemma unstoppedly_set p q : trace q = trace p -> unstoppedly p q.
Proof. intros H. exists []. split; [now rewrite app_nil_r | now split]. Qed.

Lemma unstoppedly_emit e p :
  lifecycle [e] = [] -> updates [e] = [] -> unstoppedly p (emit e p).
Proof. intros H1 H2. exists [e]. split; [reflexivity | now split]. Qed.

Lemma unstoppedly_syscall c p : unstoppedly p (fst (syscall c p)).
Proof.
  unfold syscall. destruct (faults p) as [|r rest]; simpl.
  - now apply unstoppedly_emit.
  - eapply unstoppedly_trans; [|now apply unstoppedly_emit].
    now apply unstoppedly_set.
Qed.

Lemma unstoppedly_cancel p : unstoppedly p (cancel p).
Proof. exists [cancelled]. repeat split. Qed.

Lemma unstoppedly_deferred readerOpen inputCloses p :
  unstoppedly p (deferred readerOpen inputCloses p).
Proof.
  unfold deferred.
  eapply unstoppedly_trans; [|apply unstoppedly_cancel].
  eapply unstoppedly_trans with (q := if readerOpen then _ else _).
  - destruct readerOpen;
      [now apply (unstoppedly_emit (sys cancelReaderClose None))
      | apply unstoppedly_refl].
  - destruct inputCloses;
      [now apply (unstoppedly_emit (sys inputClose None))
      | apply unstoppedly_refl].
Qed.

Lemma unstoppedly_resolveInput p : unstoppedly p (fst (resolveInput p)).
Proof.
  unfold resolveInput.
  pose proof (unstoppedly_syscall openInputTTY p) as H.
  destruct (has (options p) withInputTTY).
  - destruct (syscall openInputTTY p) as [q [e|]]; exact H.
  - destruct (negb (has (options p) withCustomInput)); [|apply unstoppedly_refl].
    destruct (input p) as [|[|]|]; try apply unstoppedly_refl.
    destruct (syscall openInputTTY p) as [q [e|]]; exact H.
Qed.

Lemma unstoppedly_honorStartupOptions p :
  unstoppedly p (honorStartupOptions p) /\
  initialModel (honorStartupOptions p) = initialModel p.
Proof.
  unfold honorStartupOptions.
  destruct (negb (Z.land (options p) withAltScreen =? 0)%Z); simpl;
    destruct (negb (Z.land (options p) withMouseCellMotion =? 0)%Z);
    try destruct (negb (Z.land (options p) withMouseAllMotion =? 0)%Z);
    (split; [|reflexivity]);
    try apply unstoppedly_refl;
    (eexists; split; [simpl; rewrite <- ?app_assoc; reflexivity | now split]).
Qed.

Lemma unstoppedly_subscribe p : unstoppedly p (fst (subscribe p)).
Proof.
  unfold subscribe.
  destruct (input p); [apply unstoppedly_refl | |]; apply unstoppedly_syscall.
Qed.

(** X9. When the start-up of Run fails (no input terminal, no raw mode, no
    input subscription), Run returns the initial Model and the error, and
    Start the error, with the scope cancelled, but without shutdown: neither
    [stop] nor [kill] is called on the renderer, even when it was already
    started, and Update is never called. *)
Theorem setup_failure_skips_shutdown p p' model err s :
  startup p = failed p' model err ->
  Run p s = exited p' model (Some err) /\
  Start p s = Some (Some err) /\
  model = initialModel p /\
  ctxDone p' = true /\
  exists t, trace p' = trace p ++ t /\ lifecycle t = [] /\ updates t = [].
Proof.
  intros Hfail.
  assert (HR : Run p s = exited p' model (Some err)) by (unfold Run; now rewrite Hfail).
  split; [exact HR|]. split; [unfold Start; now rewrite HR|].
  pose proof (startup_scope p) as Hs. rewrite Hfail in Hs. destruct Hs as (Hc & _).
  cut (model = initialModel p /\ unstoppedly p p').
  { intros (Hm & t & Ht & Hl & Hu). repeat split; try assumption. now exists t. }
  revert Hfail. unfold startup.
  pose proof (unstoppedly_resolveInput p) as U1.
  pose proof (sameTerminal_resolveInput p) as (_ & _ & _ & I1).
  destruct (resolveInput p) as [p1 [e1|]]; simpl in U1, I1.
  { intros H. injection H as <- <- _. split; [exact I1|].
    eapply unstoppedly_trans; [exact U1 | apply unstoppedly_deferred]. }
  set (p2 := if has (options p1) withoutSignalHandler then p1
             else emit (spawned goSignals) p1).
  assert (U2 : unstoppedly p1 p2 /\ initialModel p2 = initialModel p1).
  { subst p2. destruct (has (options p1) withoutSignalHandler);
      (split; [|reflexivity]);
      [apply unstoppedly_refl | now apply unstoppedly_emit]. }
  destruct U2 as (U2 & I2).
  unfold initTerminal.
  pose proof (unstoppedly_syscall rawMode (setHasRenderer true p2)) as U3.
  pose proof (sameTerminal_syscall rawMode (setHasRenderer true p2)) as (_ & _ & _ & I3).
  destruct (syscall rawMode (setHasRenderer true p2)) as [p3 [e3|]]; simpl in U3, I3.
  { intros H. injection H as <- <- _. split; [congruence|].
    eapply unstoppedly_trans; [exact U1|].
    eapply unstoppedly_trans; [exact U2|].
    eapply unstoppedly_trans; [exact U3 | apply unstoppedly_deferred]. }
  destruct (unstoppedly_honorStartupOptions p3) as (U4 & I4).
  set (p4 := honorStartupOptions p3) in *.
  set (p5 := render (initialModel p4) (call start (initialize (initialModel p4) p4))).
  assert (U5 : unstoppedly p4 p5).
  { subst p5. unfold initialize. destruct (Init (initialModel p4));
      (eexists; split; [simpl; rewrite <- ?app_assoc; reflexivity | now split]). }
  pose proof (unstoppedly_subscribe p5) as U6.
  destruct (subscribe p5) as [p6 [e6|]]; simpl in U6; [|discriminate].
  intros H. injection H as <- <- _. split; [congruence|].
  eapply unstoppedly_trans; [exact U1|].
  eapply unstoppedly_trans; [exact U2|].
  eapply unstoppedly_trans; [exact U3|].
  eapply unstoppedly_trans; [exact U4|].
  eapply unstoppedly_trans; [exact U5|].
  eapply unstoppedly_trans; [exact U6 | apply unstoppedly_deferred].
Qed.

(** ** Commands on their way *)

Lemma queuedCmds_queued (cmds : list (Cmd A ExecCommand)) :
  queuedCmds (map (@queued A ExecCommand M) cmds) = cmds.
Proof. induction cmds as [|c rest IH]; simpl; [reflexivity | now rewrite IH]. Qed.

(** X10. The dispatcher runs the commands it receives until it takes the
    done case: every command received before is run, once and in the order
    of receipt, unless it is nil, and nothing received after is run. *)
Theorem dispatcher_runs_until_done (cmds : list (Cmd A ExecCommand)) rest :
  handleCommands (map (@takenCmd _ _) cmds ++ takenDone :: rest) =
    flat_map (fun cmd => match cmd with
                         | Some f => [goSend (f tt)]
                         | None => []
                         end) cmds /\
  List.length (handleCommands (map (@takenCmd _ _) cmds ++ takenDone :: rest))
    <= List.length cmds.
Proof.
  assert (H : handleCommands (map (@takenCmd _ _) cmds ++ takenDone :: rest) =
              handleCommands (map (@takenCmd A ExecCommand) cmds)).
  { induction cmds as [|[f|] more IH]; simpl; [reflexivity | now rewrite IH | exact IH]. }
  rewrite H, handleCommands_skips_nil. split; [reflexivity|]. clear H.
  induction cmds as [|[f|] more IH]; simpl; lia.
Qed.

(** X11. A batch of commands goes to the dispatcher whole and in order,
    with no call of Update or View; what the dispatcher then runs are the
    commands of the batch that are not nil. *)
Theorem batch_reaches_the_dispatcher cmds model p :
  dispatching p = true ->
  exists p' t,
    handle (batchMsg cmds) model p = goOn p' model /\
    trace p' = trace p ++ t /\
    queuedCmds t = cmds /\
    updates t = [] /\ views t = [] /\
    handleCommands (map (@takenCmd _ _) (queuedCmds t)) =
      flat_map (fun cmd => match cmd with
                           | Some f => [goSend (f tt)]
                           | None => []
                           end) cmds.
Proof.
  intros Hd. simpl.
  destruct (queueAll_dispatching cmds p Hd) as (p' & H1 & H2).
  destruct (queueAll_log cmds p) as (t & Ht & (Hu & Hv & _) & _ & Hq).
  rewrite H1 in Ht, Hq. simpl in Ht, Hq.
  exists p', t. rewrite H1. split; [reflexivity|]. split; [exact Ht|].
  rewrite (Hq eq_refl). repeat split; try assumption.
  apply handleCommands_skips_nil.
Qed.

(** X12. The task of a sequence sends the results of its commands in the
    order of the list, up to the first nil command, and it ends normally
    exactly when no command is nil. *)
Theorem sequence_stops_at_first_nil (cmds : list (Cmd A ExecCommand)) :
  fst (runSequence cmds) = resultsUntilNil cmds /\
  snd (runSequence cmds) = (if noneNil cmds then finished else panicked) /\
  (noneNil cmds = true ->
   List.length (fst (runSequence cmds)) = List.length cmds).
Proof.
  induction cmds as [|[f|] rest (IH1 & IH2 & IH3)]; simpl.
  - repeat split.
  - destruct (runSequence rest) as [sent e]. simpl in *.
    rewrite IH1, IH2. repeat split. intros H. now rewrite <- IH1, IH3.
  - repeat split. discriminate.
Qed.

(** ** Signals *)

Lemma syscall_ignoreSignals c p :
  ignoreSignals (fst (syscall c p)) = ignoreSignals p.
Proof. unfold syscall. now destruct (faults p). Qed.

Lemma ReleaseTerminal_ignoreSignals p :
  ignoreSignals (fst (ReleaseTerminal p)) = true.
Proof.
  unfold ReleaseTerminal, restoreTerminalState.
  rewrite syscall_ignoreSignals.
  match goal with |- context [if ?b then _ else _] => destruct b end; reflexivity.
Qed.

Lemma RestoreTerminal_ignoreSignals p :
  ignoreSignals (fst (RestoreTerminal p)) = false.
Proof.
  unfold RestoreTerminal, initTerminal.
  pose proof (syscall_ignoreSignals rawMode (setIgnoreSignals false p)) as H1.
  destruct (syscall rawMode (setIgnoreSignals false p)) as [p1 [e1|]]; simpl in *.
  - exact H1.
  - pose proof (syscall_ignoreSignals initCancelReader p1) as H2.
    destruct (syscall initCancelReader p1) as [p2 [e2|]]; simpl in *.
    + congruence.
    + destruct (altScreenWasActive p2); simpl; congruence.
Qed.

Lemma handleSignals_ignored n : forall p rest,
  ignoreSignals p = true ->
  handleSignals p (repeat sgSignal n ++ rest) = handleSignals p rest.
Proof.
  induction n as [|n IH]; intros p rest Hi; simpl; [reflexivity|].
  rewrite Hi. simpl. now apply IH.
Qed.

(** X13. While the terminal is released, the signals the watcher takes
    produce no message and do not end it, however many they are; once the
    terminal is restored, even when the restore failed, the next signal
    puts one quit message on the bus of a waiting loop and the watcher
    returns. *)
Theorem signals_are_ignored_while_released p n rest :
  receiving p = true ->
  handleSignals p (sgRelease :: repeat sgSignal n ++ sgRestore :: rest) =
    handleSignals (fst (RestoreTerminal (fst (ReleaseTerminal p)))) rest /\
  handleSignals p (sgRelease :: repeat sgSignal n ++ [sgRestore; sgSignal]) =
    (fst (RestoreTerminal (fst (ReleaseTerminal p))), [quitMsg], channelClosed).
Proof.
  intros Hr. simpl.
  rewrite !handleSignals_ignored by apply ReleaseTerminal_ignoreSignals.
  split; [reflexivity|]. simpl.
  rewrite RestoreTerminal_ignoreSignals. simpl.
  destruct (sameScope_ReleaseTerminal p) as (_ & H1 & _).
  destruct (sameScope_RestoreTerminal (fst (ReleaseTerminal p))) as (_ & H2 & _).
  unfold select. simpl. now rewrite H2, H1, Hr.
Qed.

(** X14. When RestoreTerminal fails, the error is the one of the raw mode
    or the one of the input subscription, and RestoreTerminal returns at
    that step: signals are handled again, but the alt-screen is not
    re-entered and no repaint is requested. *)
Theorem RestoreTerminal_failure p p' err :
  RestoreTerminal p = (p', Some err) ->
  ignoreSignals p' = false /\
  exists t,
    trace p' = trace p ++ t /\
    ~ In enterAltScreen (calls t) /\
    ~ In (goSend repaintMsg) (spawns t) /\
    (In (rawMode, Some err) (syscalls t) \/
     In (initCancelReader, Some err) (syscalls t)).
Proof.
  intros H.
  pose proof (RestoreTerminal_ignoreSignals p) as Hi. rewrite H in Hi.
  split; [exact Hi|]. revert H.
  unfold RestoreTerminal, initTerminal, syscall. simpl.
  destruct (faults p) as [|[e|] rest] eqn:Hf; simpl; rewrite ?Hf; simpl.
  - destruct (altScreenWasActive p); discriminate.
  - intros H. injection H as <- <-.
    exists [sys rawMode (Some e)]. simpl.
    split; [reflexivity|]. split; [now intros []|]. split; [now intros []|].
    left. now left.
  - destruct rest as [|[e'|] rest']; simpl.
    + destruct (altScreenWasActive p); discriminate.
    + intros H. injection H as <- <-.
      exists [sys rawMode None; sys initCancelReader (Some e')]. simpl.
      split; [now rewrite <- app_assoc|].
      split; [now intros []|]. split; [now intros []|].
      right. right. now left.
    + destruct (altScreenWasActive p); discriminate.
Qed.

(** ** Quit *)

(** X15. Quit is Send of the quit message: on a program that has not
    started it blocks; when the event loop waits, the message is handed to
    it, and the loop that takes it returns the Model it holds, with no
    error and nothing added to the log. *)
Theorem Quit_ends_a_waiting_loop p model before pa ma :
  eventLoop p model before = parked pa ma ->
  Quit pa = [onSend quitMsg] /\
  eventLoop p model (before ++ [tMsg quitMsg])
    = returned (setReceiving false pa) ma None /\
  trace (setReceiving false pa) = trace pa /\
  (forall q : Program A ExecCommand M, fresh q -> Quit q = []).
Proof.
  intros H. destruct (eventLoop_parked _ _ _ _ _ H) as (Hc & Hr).
  split; [unfold Quit, Send, select; simpl; now rewrite Hc, Hr|].
  split; [now rewrite (eventLoop_app _ _ _ _ _ _ H)|].
  split; [reflexivity|].
  intros q (Hqc & Hqr). unfold Quit, Send, select. simpl. now rewrite Hqc, Hqr.
Qed.

(** ** Send and the loop *)

(** X16. Send to a waiting event loop hands the message over, and the
    loop that takes an application message runs exactly one transition
    with it, on the Model it holds, and waits again. *)
Theorem Send_reaches_the_transition p model before pa ma msg :
  eventLoop p model before = parked pa ma ->
  dispatching pa = true ->
  isControl msg = false ->
  Send msg pa = [onSend msg] /\
  exists p',
    eventLoop p model (before ++ [tMsg msg]) = parked p' (fst (Update ma msg)) /\
    trace p' = trace pa ++ transition (isStandard (renderer pa)) ma msg.
Proof.
  intros H Hd Hm. destruct (eventLoop_parked _ _ _ _ _ H) as (Hc & Hr).
  split; [unfold Send, select; simpl; now rewrite Hc, Hr|].
  rewrite (eventLoop_app _ _ _ _ _ _ H).
  destruct (eventLoop_application [msg] pa ma Hc Hd) as (p' & Hloop & Htr).
  { now constructor. }
  exists p'. simpl in Hloop, Htr. rewrite app_nil_r in Htr. now split.
Qed.

(** ** The start-up of Run *)

Lemma spawns_app (t u : list (Event A ExecCommand M)) :
  spawns (t ++ u) = spawns t ++ spawns u.
Proof. apply flat_map_app. Qed.

Lemma inits_app (t u : list (Event A ExecCommand M)) :
  inits (t ++ u) = inits t ++ inits u.
Proof. apply flat_map_app. Qed.

Lemma osOnly_silent (t : list (Event A ExecCommand M)) :
  osOnly t ->
  inits t = [] /\ views t = [] /\ frames t = [] /\ updates t = [] /\
  spawns t = [].
Proof.
  induction 1 as [|e t (c & r & ->) _ IH]; [repeat split|]. exact IH.
Qed.

Lemma osStep_refl p : osStep p p.
Proof.
  split; [|repeat split]. exists []. split; [now rewrite app_nil_r | constructor].
Qed.

Lemma osStep_syscall c p : osStep p (fst (syscall c p)).
Proof.
  unfold syscall. destruct (faults p) as [|r rest]; simpl;
    (split; [|repeat split]); eexists; (split; [reflexivity|]);
    repeat constructor; eexists; eexists; reflexivity.
Qed.

Lemma osStep_resolveInput p : osStep p (fst (resolveInput p)).
Proof.
  unfold resolveInput.
  pose proof (osStep_syscall openInputTTY p) as H.
  destruct (has (options p) withInputTTY).
  - destruct (syscall openInputTTY p) as [q [e|]]; exact H.
  - destruct (negb (has (options p) withCustomInput)); [|apply osStep_refl].
    destruct (input p) as [|[|]|]; try apply osStep_refl.
    destruct (syscall openInputTTY p) as [q [e|]]; exact H.
Qed.

Lemma osStep_subscribe p : osStep p (fst (subscribe p)).
Proof.
  unfold subscribe.
  destruct (input p); [apply osStep_refl | |]; apply osStep_syscall.
Qed.

Lemma honorStartupOptions_log p :
  (exists t,
     trace (honorStartupOptions p) = trace p ++ t /\
     inits t = [] /\ views t = [] /\ frames t = [] /\ updates t = [] /\
     spawns t = []) /\
  options (honorStartupOptions p) = options p /\
  initialModel (honorStartupOptions p) = initialModel p /\
  outputIsTerminal (honorStartupOptions p) = outputIsTerminal p.
Proof.
  unfold honorStartupOptions.
  destruct (negb (Z.land (options p) withAltScreen =? 0)%Z); simpl;
    destruct (negb (Z.land (options p) withMouseCellMotion =? 0)%Z);
    try destruct (negb (Z.land (options p) withMouseAllMotion =? 0)%Z);
    (split; [|repeat split]);
    (eexists; split;
     [simpl; rewrite <- ?app_assoc; try reflexivity;
      symmetry; apply app_nil_r
     | repeat split]).
Qed.

(** X17. When its start-up succeeds, Run enters the event loop with the
    initial Model, having called Init once and View once, both on that
    Model, written that one frame, and called Update not at all; the
    goroutines it has started are the signal watcher unless it is
    disabled, the hand-over of the init command unless Init returned nil,
    the resize watchers when the output is a terminal, and the command
    dispatcher, which is then receiving. *)
Theorem startup_renders_the_initial_model p p0 model0 readerOpen inputCloses :
  startup p = running p0 model0 readerOpen inputCloses ->
  model0 = initialModel p /\
  dispatching p0 = true /\
  exists t,
    trace p0 = trace p ++ t /\
    inits t = [initialModel p] /\
    views t = [initialModel p] /\
    frames t = [View (initialModel p)] /\
    updates t = [] /\
    spawns t = startupSpawns p.
Proof.
  unfold startup, startupSpawns.
  destruct (osStep_resolveInput p) as ((t1 & Ht1 & Ho1) & O1 & I1 & T1).
  destruct (resolveInput p) as [p1 [e1|]]; [discriminate|]. simpl in *.
  set (sig := (if has (options p1) withoutSignalHandler then []
               else [spawned goSignals]) : list (Event A ExecCommand M)).
  set (p2 := if has (options p1) withoutSignalHandler then p1
             else emit (spawned goSignals) p1).
  assert (H2 : trace p2 = trace p1 ++ sig /\ options p2 = options p1 /\
               initialModel p2 = initialModel p1 /\
               outputIsTerminal p2 = outputIsTerminal p1).
  { subst p2 sig. destruct (has (options p1) withoutSignalHandler);
      simpl; rewrite ?app_nil_r; repeat split. }
  destruct H2 as (Ht2 & O2 & I2 & T2).
  unfold initTerminal.
  destruct (osStep_syscall rawMode (setHasRenderer true p2))
    as ((t3 & Ht3 & Ho3) & O3 & I3 & T3).
  destruct (syscall rawMode (setHasRenderer true p2)) as [p3 [e3|]];
    [discriminate|]. simpl in *.
  destruct (honorStartupOptions_log p3)
    as ((t4 & Ht4 & Hi4 & Hv4 & Hf4 & Hu4 & Hs4) & O4 & I4 & T4).
  set (p4 := honorStartupOptions p3) in *.
  set (model := initialModel p4) in *.
  set (ini := (match Init model with
               | Some initCmd => [spawned (goInitCmd initCmd)]
               | None => []
               end) : list (Event A ExecCommand M)).
  set (p5 := render model (call start (initialize model p4))).
  assert (H5 : trace p5 =
               trace p4 ++ inited model :: ini ++
               [called start; viewed model; called (write (View model))] /\
               options p5 = options p4 /\ initialModel p5 = initialModel p4 /\
               outputIsTerminal p5 = outputIsTerminal p4).
  { subst p5 ini. unfold initialize. destruct (Init model); simpl;
      rewrite <- ?app_assoc; repeat split. }
  destruct H5 as (Ht5 & O5 & I5 & T5).
  destruct (osStep_subscribe p5) as ((t6 & Ht6 & Ho6) & O6 & I6 & T6).
  destruct (subscribe p5) as [p6 [e6|]]; [discriminate|]. simpl in *.
  intros H. injection H as <- <- _ _.
  assert (Hm : model = initialModel p) by (subst model; congruence).
  split; [exact Hm|]. split; [now destruct (outputIsTerminal p6)|].
  destruct (osOnly_silent t1 Ho1) as (Hi1 & Hv1 & Hf1 & Hu1 & Hs1).
  destruct (osOnly_silent t3 Ho3) as (Hi3 & Hv3 & Hf3 & Hu3 & Hs3).
  destruct (osOnly_silent t6 Ho6) as (Hi6 & Hv6 & Hf6 & Hu6 & Hs6).
  exists (t1 ++ sig ++ t3 ++ t4 ++
          (inited model :: ini ++
           [called start; viewed model; called (write (View model))]) ++
          t6 ++
          (if outputIsTerminal p6 then [spawned goResize] else []) ++
          [spawned goCommands]).
  split.
  { destruct (outputIsTerminal p6); simpl; rewrite Ht6, Ht5, Ht4, Ht3, Ht2, Ht1;
      rewrite <- !app_assoc; simpl; rewrite <- ?app_assoc; reflexivity. }
  assert (Hsig : inits sig = [] /\ views sig = [] /\ frames sig = [] /\
                 updates sig = [] /\
                 spawns sig = if has (options p) withoutSignalHandler
                              then [] else [goSignals]).
  { subst sig. rewrite O1. destruct (has (options p) withoutSignalHandler);
      repeat split. }
  destruct Hsig as (Hi2 & Hv2 & Hf2 & Hu2 & Hs2).
  assert (Hini : inits ini = [] /\ views ini = [] /\ frames ini = [] /\
                 updates ini = [] /\
                 spawns ini = match Init (initialModel p) with
                              | Some initCmd => [goInitCmd initCmd]
                              | None => []
                              end).
  { subst ini. rewrite Hm. destruct (Init (initialModel p)); repeat split. }
  destruct Hini as (Hi5 & Hv5 & Hf5 & Hu5 & Hs5).
  assert (HT : outputIsTerminal p6 = outputIsTerminal p) by congruence.
  rewrite !inits_app, !views_app, !frames_app, !updates_app, !spawns_app.
  simpl.
  rewrite !inits_app, !views_app, !frames_app, !updates_app, !spawns_app.
  rewrite Hi1, Hi2, Hi3, Hi4, Hi5, Hi6, Hv1, Hv2, Hv3, Hv4, Hv5, Hv6.
  rewrite Hf1, Hf2, Hf3, Hf4, Hf5, Hf6, Hu1, Hu2, Hu3, Hu4, Hu5, Hu6.
  rewrite Hs1, Hs2, Hs3, Hs4, Hs5, Hs6, HT, <- Hm.
  destruct (outputIsTerminal p); simpl; rewrite ?app_nil_r; repeat split.
Qed.

(** ** The shutdown at the end of Run *)

Lemma sameHandles_refl p : sameHandles p p.
Proof. now split. Qed.

Lemma sameHandles_trans p q r :
  sameHandles p q -> sameHandles q r -> sameHandles p r.
Proof. intros (H1 & H2) (H3 & H4). split; congruence. Qed.

Lemma sameHandles_syscall c p : sameHandles p (fst (syscall c p)).
Proof. unfold syscall. destruct (faults p); now split. Qed.

Lemma sameHandles_restoreTerminalState p :
  sameHandles p (fst (restoreTerminalState p)).
Proof.
  unfold restoreTerminalState.
  eapply sameHandles_trans; [|apply sameHandles_syscall].
  destruct (altScreen _); now split.
Qed.

Lemma sameHandles_ReleaseTerminal p : sameHandles p (fst (ReleaseTerminal p)).
Proof.
  unfold ReleaseTerminal.
  eapply sameHandles_trans; [|apply sameHandles_restoreTerminalState].
  now split.
Qed.

Lemma sameHandles_RestoreTerminal p : sameHandles p (fst (RestoreTerminal p)).
Proof.
  unfold RestoreTerminal, initTerminal.
  pose proof (sameHandles_syscall rawMode (setIgnoreSignals false p)) as H1.
  destruct (syscall rawMode (setIgnoreSignals false p)) as [p1 [e1|]]; simpl in *.
  - exact H1.
  - pose proof (sameHandles_syscall initCancelReader p1) as H2.
    destruct (syscall initCancelReader p1) as [p2 [e2|]]; simpl in *.
    + eapply sameHandles_trans; eassumption.
    + eapply sameHandles_trans; [exact H1|].
      eapply sameHandles_trans; [exact H2|].
      destruct (altScreenWasActive p2); now split.
Qed.

Lemma sameHandles_exec c fn p : sameHandles p (exec c fn p).
Proof.
  unfold exec.
  pose proof (sameHandles_ReleaseTerminal p) as H1.
  pose proof (sameHandles_syscall (runProcess c) (fst (ReleaseTerminal p))) as H2.
  destruct (syscall (runProcess c) (fst (ReleaseTerminal p))) as [p2 err].
  simpl in H2.
  pose proof (sameHandles_RestoreTerminal p2) as H3.
  eapply sameHandles_trans; [exact H1|].
  eapply sameHandles_trans; [exact H2|].
  eapply sameHandles_trans; [exact H3|].
  destruct fn; now split.
Qed.

Lemma sameHandles_sideEffect msg p : sameHandles p (sideEffect msg p).
Proof. destruct msg; try (now split); apply sameHandles_exec. Qed.

Lemma sameHandles_queueAll cmds : forall p, sameHandles p (fst (queueAll cmds p)).
Proof.
  induction cmds as [|cmd rest IH]; intros p; simpl; [apply sameHandles_refl|].
  unfold queue. destruct (dispatching p); [|apply sameHandles_refl].
  eapply sameHandles_trans; [|apply IH]. now split.
Qed.

Lemma sameHandles_forward msg model p :
  sameHandles p (programOfHandled (forward msg model p)).
Proof.
  unfold forward, queue. destruct (Update model msg) as [model' cmd].
  destruct (isStandard (renderer p)); simpl;
    destruct (dispatching p); now split.
Qed.

Lemma sameHandles_handle msg model p :
  sameHandles p (programOfHandled (handle msg model p)).
Proof.
  destruct (isQuit msg) eqn:Hq; [destruct msg; try discriminate; now split|].
  destruct (isBatch msg) eqn:Hb.
  - destruct msg; try discriminate. simpl.
    pose proof (sameHandles_queueAll cmds p) as H.
    destruct (queueAll cmds p) as [p' []]; exact H.
  - rewrite handle_forward by assumption.
    eapply sameHandles_trans; [apply sameHandles_sideEffect | apply sameHandles_forward].
Qed.

(** Nothing the loop does sets or unsets the renderer. *)
Lemma sameHandles_eventLoop ticks : forall p model p' model' err,
  eventLoop p model ticks = returned p' model' err -> sameHandles p p'.
Proof.
  induction ticks as [|t rest IH]; intros p model p' model' err H; simpl in H.
  - destruct (ctxDone p); [|discriminate]. injection H as <- _ _. now split.
  - destruct t.
    + eapply sameHandles_trans; [|eapply IH; exact H]. now split.
    + destruct (ctxDone p); [|discriminate].
      eapply sameHandles_trans; [|eapply IH; exact H]. now split.
    + destruct (ctxDone p); [|discriminate]. injection H as <- _ _. now split.
    + injection H as <- _ _. now split.
    + pose proof (sameHandles_handle msg model (setReceiving false p)) as Hh.
      destruct (handle msg model (setReceiving false p)) as [q m e|q m|q m];
        simpl in Hh; try discriminate.
      * injection H as <- _ _. exact Hh.
      * eapply sameHandles_trans; [exact Hh | eapply IH; exact H].
Qed.

Lemma sameHandles_resolveInput p : sameHandles p (fst (resolveInput p)).
Proof.
  unfold resolveInput.
  pose proof (sameHandles_syscall openInputTTY p) as H.
  destruct (has (options p) withInputTTY).
  - destruct (syscall openInputTTY p) as [q [e|]]; exact H.
  - destruct (negb (has (options p) withCustomInput)); [|apply sameHandles_refl].
    destruct (input p) as [|[|]|]; try apply sameHandles_refl.
    destruct (syscall openInputTTY p) as [q [e|]]; exact H.
Qed.

Lemma sameHandles_honorStartupOptions p : sameHandles p (honorStartupOptions p).
Proof.
  unfold honorStartupOptions.
  destruct (negb (Z.land (options p) withAltScreen =? 0)%Z); simpl;
    destruct (negb (Z.land (options p) withMouseCellMotion =? 0)%Z);
    try (now split);
    destruct (negb (Z.land (options p) withMouseAllMotion =? 0)%Z);
    now split.
Qed.

Lemma sameHandles_subscribe p : sameHandles p (fst (subscribe p)).
Proof.
  unfold subscribe.
  destruct (input p); [apply sameHandles_refl | |]; apply sameHandles_syscall.
Qed.

(** Run enters its loop with a renderer set. *)
Lemma startup_handles p p0 model0 readerOpen inputCloses :
  startup p = running p0 model0 readerOpen inputCloses ->
  hasRenderer p0 = true /\ hasRestoreOutput p0 = hasRestoreOutput p.
Proof.
  unfold startup.
  pose proof (sameHandles_resolveInput p) as (_ & R1).
  destruct (resolveInput p) as [p1 [e1|]]; [discriminate|]. simpl in R1.
  set (p2 := if has (options p1) withoutSignalHandler then p1
             else emit (spawned goSignals) p1).
  assert (R2 : hasRestoreOutput p2 = hasRestoreOutput p1).
  { subst p2. now destruct (has (options p1) withoutSignalHandler). }
  unfold initTerminal.
  pose proof (sameHandles_syscall rawMode (setHasRenderer true p2)) as (H3 & R3).
  destruct (syscall rawMode (setHasRenderer true p2)) as [p3 [e3|]];
    [discriminate|]. simpl in H3, R3.
  set (p4 := render (initialModel (honorStartupOptions p3))
               (call start
                  (initialize (initialModel (honorStartupOptions p3))
                     (honorStartupOptions p3)))).
  assert (H4 : sameHandles p3 p4).
  { subst p4.
    eapply sameHandles_trans; [apply sameHandles_honorStartupOptions|].
    unfold initialize. destruct (Init _); now split. }
  destruct H4 as (H4 & R4).
  pose proof (sameHandles_subscribe p4) as (H5 & R5).
  destruct (subscribe p4) as [p5 [e5|]]; [discriminate|]. cbn [fst] in H5, R5.
  intros H. injection H as <- _ _ _.
  destruct (outputIsTerminal p5); simpl; split; congruence.
Qed.

(** What shutdown adds to the log of a Program that has a renderer. *)
Lemma shutdown_log killed p :
  hasRenderer p = true ->
  exists t,
    trace (shutdown killed p) = trace p ++ t /\
    lifecycle t = [if killed then kill else stop] /\
    updates t = [] /\
    In cookedMode (map fst (syscalls t)) /\
    (hasRestoreOutput p = true -> In restoreOutput (map fst (syscalls t))).
Proof.
  intros Hr. unfold shutdown. rewrite Hr.
  set (p1 := if killed then call kill p else call stop p).
  assert (H1 : trace p1 = trace p ++ [called (if killed then kill else stop)] /\
               hasRestoreOutput p1 = hasRestoreOutput p).
  { subst p1. now destruct killed. }
  destruct H1 as (Ht1 & Ho1).
  assert (H2 : exists t2,
             trace (fst (restoreTerminalState p1)) = trace p1 ++ t2 /\
             lifecycle t2 = [] /\ updates t2 = [] /\
             In cookedMode (map fst (syscalls t2))).
  { unfold restoreTerminalState, syscall.
    destruct (altScreen _); destruct (faults _); simpl;
      (eexists; split; [rewrite <- ?app_assoc; simpl; reflexivity|]);
      simpl; repeat split; auto. }
  destruct H2 as (t2 & Ht2 & Hl2 & Hu2 & Hs2).
  pose proof (sameHandles_restoreTerminalState p1) as (_ & Ho2).
  rewrite Ho2, Ho1.
  destruct (hasRestoreOutput p) eqn:Hout.
  - assert (H3 : exists r,
               trace (fst (syscall restoreOutput (fst (restoreTerminalState p1)))) =
               trace (fst (restoreTerminalState p1)) ++ [sys restoreOutput r]).
    { unfold syscall. destruct (faults _); simpl; eexists; reflexivity. }
    destruct H3 as (r & Ht3).
    exists ([called (if killed then kill else stop)] ++ t2 ++ [sys restoreOutput r]).
    split; [rewrite Ht3, Ht2, Ht1, <- !app_assoc; reflexivity|].
    rewrite !lifecycle_app, !updates_app, !syscalls_app, !map_app, Hl2, Hu2.
    split; [now destruct killed|]. split; [now destruct killed|].
    split.
    + apply in_or_app. right. apply in_or_app. now left.
    + intros _. apply in_or_app. right. apply in_or_app. right. now left.
  - exists ([called (if killed then kill else stop)] ++ t2).
    split; [rewrite Ht2, Ht1, <- !app_assoc; reflexivity|].
    rewrite !lifecycle_app, !updates_app, !syscalls_app, !map_app, Hl2, Hu2.
    split; [now destruct killed|]. split; [now destruct killed|].
    split; [apply in_or_app; now right | discriminate].
Qed.

(** X8. When the event loop has returned, in a Program that reads input
    and whose signal watcher takes no signal after the loop, Run returns
    after it has shut the renderer down exactly once, with [kill] when the
    scope was cancelled at the check and with [stop] otherwise, and has
    put the terminal back in cooked mode and, when it is set, called
    restoreOutput; Update is not called any more. *)
Theorem Run_shuts_down_once p s p0 model0 inputCloses p1 model err :
  startup p = running p0 model0 true inputCloses ->
  eventLoop p0 model0 (ticks s) = returned p1 model err ->
  lateSignal s = false ->
  exists p' err' t,
    Run p s = exited p' model err' /\
    trace p' = trace p1 ++ t /\
    lifecycle t = [if ctxDone p1 || killBeforeCheck s then kill else stop] /\
    updates t = [] /\
    In cookedMode (map fst (syscalls t)) /\
    (hasRestoreOutput p = true -> In restoreOutput (map fst (syscalls t))).
Proof.
  intros Hstart Hloop Hsig.
  destruct (startup_handles _ _ _ _ _ Hstart) as (Hr0 & Ho0).
  destruct (sameHandles_eventLoop _ _ _ _ _ _ Hloop) as (Hr1 & Ho1).
  rewrite Hr0 in Hr1. rewrite Ho0 in Ho1.
  unfold Run. rewrite Hstart, Hloop. unfold finish.
  rewrite (watcherBlocks_no_signal _ _ Hsig).
  set (pk := if killBeforeCheck s then Kill p1 else p1).
  assert (Hk : ctxDone pk = ctxDone p1 || killBeforeCheck s).
  { subst pk. destruct (killBeforeCheck s); simpl;
      [now rewrite orb_true_r | now rewrite orb_false_r]. }
  rewrite Hk.
  set (killed := ctxDone p1 || killBeforeCheck s).
  set (p7 := emit (sys handlersShutdown None) (setDispatching false _)).
  assert (H7 : unstoppedly p1 p7 /\ sameHandles p1 p7).
  { subst p7. split.
    - eapply unstoppedly_trans;
        [|now apply (unstoppedly_emit (sys handlersShutdown None))].
      eapply unstoppedly_trans with (q := if cancelSucceeds s then _ else _);
        [|now apply unstoppedly_set].
      eapply unstoppedly_trans with
        (q := emit (sys cancelReaderCancel None) _);
        [|destruct (cancelSucceeds s);
          [now apply (unstoppedly_emit (sys waitForReadLoop None))
          | apply unstoppedly_refl]].
      eapply unstoppedly_trans;
        [|now apply (unstoppedly_emit (sys cancelReaderCancel None))].
      eapply unstoppedly_trans; [|apply unstoppedly_cancel].
      eapply unstoppedly_trans with
        (q := if killAfterCheck s then Kill pk else pk).
      + eapply unstoppedly_trans with (q := pk).
        * subst pk. destruct (killBeforeCheck s);
            [apply unstoppedly_cancel | apply unstoppedly_refl].
        * destruct (killAfterCheck s);
            [apply unstoppedly_cancel | apply unstoppedly_refl].
      + destruct killed; [apply unstoppedly_refl|].
        exists [viewed model; called (write (View model))].
        split; [simpl; now rewrite <- app_assoc | now split].
    - subst pk. destruct (killBeforeCheck s), (killAfterCheck s), killed,
        (cancelSucceeds s); now split. }
  destruct H7 as ((ta & Hta & Hla & Hua) & (Hr7 & Ho7)).
  rewrite Hr1 in Hr7. rewrite Ho1 in Ho7.
  destruct (shutdown_log killed p7 Hr7) as (tb & Htb & Hlb & Hub & Hcb & Hob).
  destruct (unstoppedly_deferred true inputCloses (shutdown killed p7))
    as (tc & Htc & Hlc & Huc).
  eexists. eexists. exists (ta ++ tb ++ tc).
  split; [reflexivity|].
  split; [now rewrite Htc, Htb, Hta, <- !app_assoc|].
  rewrite !lifecycle_app, !updates_app, !syscalls_app, !map_app.
  rewrite Hla, Hlb, Hlc, Hua, Hub, Huc.
  split; [reflexivity|]. split; [reflexivity|]. split.
  - apply in_or_app. right. apply in_or_app. now left.
  - intros H. apply in_or_app. right. apply in_or_app. left.
    apply Hob. now rewrite Ho7.
Qed.

End Properties.

(** * The properties on the sample application *)

Import Counter.

Lemma eventLoop_threads_model_witness :
  exists p',
    eventLoop (started (NewProgram 0 0%Z)) 0 (map (@tMsg _ _) [inc; inc; noop; inc])
      = parked p' (lastModel 0 [inc; inc; noop; inc]) /\
    trace p' =
      trace (started (NewProgram 0 0%Z)) ++
      transitions (isStandard (renderer (started (NewProgram 0 0%Z)))) 0
        [inc; inc; noop; inc] /\
    updates (trace p') =
      updates (trace (started (NewProgram 0 0%Z))) ++ threaded 0 [inc; inc; noop; inc] /\
    List.length (threaded 0 [inc; inc; noop; inc]) = List.length [inc; inc; noop; inc] /\
    map snd (threaded 0 [inc; inc; noop; inc]) = [inc; inc; noop; inc] /\
    views (trace p') =
      views (trace (started (NewProgram 0 0%Z))) ++
      map (fun x => fst (Update (fst x) (snd x))) (threaded 0 [inc; inc; noop; inc]) /\
    frames (trace p') =
      frames (trace (started (NewProgram 0 0%Z))) ++
      map (fun x => View (fst (Update (fst x) (snd x)))) (threaded 0 [inc; inc; noop; inc]).
Proof.
  refine (eventLoop_threads_model (started (NewProgram 0 0%Z)) 0
            [inc; inc; noop; inc] _ _ _).
  - vm_compute; reflexivity.
  - vm_compute; reflexivity.
  - repeat constructor.
Defined.

Lemma quit_without_input_panics_witness :
  exists pa p' t,
    eventLoop (started (withoutInput 0)) 0 (map (@tMsg _ _) [inc; inc; noop; inc])
      = parked pa (lastModel 0 [inc; inc; noop; inc]) /\
    eventLoop pa (lastModel 0 [inc; inc; noop; inc]) [tMsg quitMsg]
      = returned (setReceiving false pa) (lastModel 0 [inc; inc; noop; inc]) None /\
    (Run (withoutInput 0) scenario = recovered p' \/
     Run (withoutInput 0) scenario = crashed p') /\
    trace p' = trace pa ++ t /\
    updates t = [] /\
    views t = [lastModel 0 [inc; inc; noop; inc]] /\
    frames t = [View (lastModel 0 [inc; inc; noop; inc])].
Proof.
  refine (quit_without_input_panics
    (withoutInput 0) scenario (started (withoutInput 0)) 0 false
    [inc; inc; noop; inc] [] _ _ _ _ _).
  - reflexivity.
  - vm_compute; reflexivity.
  - repeat constructor.
  - reflexivity.
  - reflexivity.
Defined.

(** The scenario on a program without input: the quit message ends the
    loop with the count 3, the final frame is written, and the panic of
    [p.cancelReader.Cancel()] is recovered: Run returns no Model, and Start
    a nil error. *)
Example quit_without_input_is_recovered :
  exists p',
    Run (withoutInput 0) scenario = recovered p' /\
    Start (withoutInput 0) scenario = Some None /\
    frames (afterCancel (trace p')) = [] /\
    lifecycle (trace p') = [kill].
Proof. eexists. split; [vm_compute; reflexivity|]. repeat split. Qed.

(** The same scenario on a program that reads input ends as it should. *)
Example quit_with_input :
  exists p' t,
    Run (NewProgram 0 0%Z) scenario = exited p' 3 None /\
    trace p' =
      trace (looped (started (NewProgram 0 0%Z)) 0 [tMsg inc; tMsg inc; tMsg noop; tMsg inc]) ++ t /\
    updates t = [] /\ views t = [3] /\ frames t = ["***"%string].
Proof.
  refine (proj2 (proj2 (quit_with_input_is_graceful
    (NewProgram 0 0%Z) scenario (started (NewProgram 0 0%Z)) 0 true
    [tMsg inc; tMsg inc; tMsg noop; tMsg inc] []
    (looped (started (NewProgram 0 0%Z)) 0 [tMsg inc; tMsg inc; tMsg noop; tMsg inc]) 3
    _ _ _ _ _))); vm_compute; reflexivity.
Qed.

(** A signal the watcher takes once the loop has returned leaves it in
    its send on [p.msgs], and Run waiting for it in
    [handlers.shutdown()]: Run does not return. *)
Example late_signal_can_hang_Run :
  exists p', Run (NewProgram 0 0%Z) signalAfterLoop = hung p' 3.
Proof. eexists. vm_compute; reflexivity. Qed.



Lemma ran_reachable :
  reachable (ran (NewProgram 0 0%Z) scenario).
Proof.
  exists (NewProgram 0 0%Z). split; [now split|].
  eapply steps_step; [apply steps_refl|].
  apply step_Run with (s := scenario). vm_compute; reflexivity.
Qed.

Lemma Send_after_termination_witness :
  Send inc (ran (NewProgram 0 0%Z) scenario) = [onDone] /\
  forall q, steps (ran (NewProgram 0 0%Z) scenario) q -> Send inc q = [onDone].
Proof.
  refine (Send_after_termination (ran (NewProgram 0 0%Z) scenario) inc _ _).
  - exact ran_reachable.
  - vm_compute; reflexivity.
Defined.

Lemma Println_after_termination_witness :
  Println Sprint ["hello"%string]
    (Nat.iter 1 (@Kill _ _ _) (ran (NewProgram 0 0%Z) scenario)) = [] /\
  Printf Sprintf "count: "%string ["hello"%string]
    (Nat.iter 1 (@Kill _ _ _) (ran (NewProgram 0 0%Z) scenario)) = [] /\
  forall msg,
    Send msg (Nat.iter 1 (@Kill _ _ _) (ran (NewProgram 0 0%Z) scenario)) = [onDone].
Proof.
  refine (Println_after_termination Sprint Sprintf
            (NewProgram 0 0%Z) scenario (ran (NewProgram 0 0%Z) scenario)
            3 None 1 ["hello"%string] "count: "%string _).
  vm_compute; reflexivity.
Defined.

(** C6, as stated, fails on a batch message: it is a control message other
    than quit, its command is handed to the dispatcher, and Update and View
    are not called. *)
Lemma batch_is_not_forwarded :
  isControl (batchMsg [Some (@QuitCmd string unit)]) = true /\
  isQuit (batchMsg [Some (@QuitCmd string unit)]) = false /\
  exists p',
    handle (batchMsg [Some (@QuitCmd string unit)]) 0 (started (NewProgram 0 0%Z))
      = goOn p' 0 /\
    trace p' = trace (started (NewProgram 0 0%Z)) ++ [queued (Some (@QuitCmd string unit))] /\
    updates (trace p') = updates (trace (started (NewProgram 0 0%Z))) /\
    views (trace p') = views (trace (started (NewProgram 0 0%Z))).
Proof.
  split; [reflexivity|]. split; [reflexivity|].
  eexists. split; [vm_compute; reflexivity|]. split; [reflexivity|].
  split; reflexivity.
Qed.

Lemma control_messages_but_batch_are_forwarded_witness :
  exists p' t,
    handle enterAltScreenMsg 0 (started (NewProgram 0 0%Z))
      = goOn p' (fst (Update 0 enterAltScreenMsg)) /\
    trace (sideEffect enterAltScreenMsg (started (NewProgram 0 0%Z)))
      = trace (started (NewProgram 0 0%Z)) ++ t /\
    quiet t /\
    trace p' =
      (trace (started (NewProgram 0 0%Z)) ++ t) ++
      transition
        (isStandard (renderer (sideEffect enterAltScreenMsg (started (NewProgram 0 0%Z)))))
        0 enterAltScreenMsg.
Proof.
  refine (proj1 (control_messages_but_batch_are_forwarded
                   enterAltScreenMsg 0 (started (NewProgram 0 0%Z)) _) _ _).
  - vm_compute; reflexivity.
  - reflexivity.
  - reflexivity.
Defined.

Lemma cell_motion_takes_precedence_witness :
  calls (trace (honorStartupOptions (NewProgram 0 bothMouseOptions))) =
    calls (trace (NewProgram 0 bothMouseOptions)) ++
    (if has (options (NewProgram 0 bothMouseOptions)) withAltScreen
     then [enterAltScreen] else []) ++
    [enableMouseCellMotion] /\
  mouseCellMotion (renderer (honorStartupOptions (NewProgram 0 bothMouseOptions))) = true /\
  mouseAllMotion (renderer (honorStartupOptions (NewProgram 0 bothMouseOptions))) =
    mouseAllMotion (renderer (NewProgram 0 bothMouseOptions)).
Proof.
  refine (proj1 (cell_motion_takes_precedence (NewProgram 0 bothMouseOptions) _ _));
    vm_compute; reflexivity.
Defined.

(** A program that runs with the cell-motion mode on: both calls succeed,
    and the mode is off afterwards. *)
Lemma release_restore_forgets_cell_motion :
  mouseCellMotion (renderer (started (NewProgram 0 withMouseCellMotion))) = true /\
  exists p1 p2,
    ReleaseTerminal (started (NewProgram 0 withMouseCellMotion)) = (p1, None) /\
    RestoreTerminal p1 = (p2, None) /\
    mouseCellMotion (renderer p2) = false.
Proof.
  split; [reflexivity|]. eexists. eexists.
  split; [vm_compute; reflexivity|]. split; [vm_compute; reflexivity|].
  reflexivity.
Qed.

(** A program that runs in the alt-screen: it is back in it after the two
    calls, by a re-entry. *)
Example release_restore_keeps_alt_screen :
  altScreen (renderer (started (NewProgram 0 withAltScreen))) = true /\
  exists p1 p2,
    ReleaseTerminal (started (NewProgram 0 withAltScreen)) = (p1, None) /\
    RestoreTerminal p1 = (p2, None) /\
    altScreen (renderer p1) = false /\
    altScreen (renderer p2) = true.
Proof.
  split; [reflexivity|]. eexists. eexists.
  split; [vm_compute; reflexivity|]. split; [vm_compute; reflexivity|].
  split; reflexivity.
Qed.

(** A sequence whose second command is nil: the first result is sent and
    the task panics. *)
Example sequence_with_nil :
  runSequence [Some (fun _ => inc); None; Some (fun _ => noop)] = ([inc], panicked).
Proof. reflexivity. Qed.

(** After a Kill the dispatcher returns; the loop still takes a message,
    calls Update, and blocks handing over the command: Run does not
    return. *)
Example kill_can_hang_Run :
  exists p',
    Run (NewProgram 0 0%Z)
      {| ticks := [tMsg inc; tKill; tDispatcherExit; tMsg inc];
         killBeforeCheck := false; killAfterCheck := false;
         cancelSucceeds := true; lateSignal := false |} = hung p' 2 /\
    ctxDone p' = true /\ dispatching p' = false.
Proof. eexists. split; [vm_compute; reflexivity|]. now split. Qed.

(** * The further properties on the sample application *)


Lemma eventLoop_updates_chain_witness :
  exists t,
    trace (looped (started (NewProgram 0 0%Z)) 0 (ticks scenario)) =
      trace (started (NewProgram 0 0%Z)) ++ t /\
    chained 0 (updates t) 3.
Proof.
  refine (eventLoop_updates_chain (started (NewProgram 0 0%Z)) 0 (ticks scenario)
            (looped (started (NewProgram 0 0%Z)) 0 (ticks scenario)) 3 _).
  vm_compute; reflexivity.
Defined.

Lemma eventLoop_renders_every_update_witness :
  exists t,
    trace (looped (started (NewProgram 0 0%Z)) 0 (ticks scenario)) =
      trace (started (NewProgram 0 0%Z)) ++ t /\
    rendering t = flat_map rendered (updates t) /\
    views t = map result (updates t) /\
    frames t = map (@View _ _ _ counter) (views t).
Proof.
  refine (eventLoop_renders_every_update (started (NewProgram 0 0%Z)) 0
            (ticks scenario)
            (looped (started (NewProgram 0 0%Z)) 0 (ticks scenario)) 3 _ _);
    vm_compute; reflexivity.
Defined.

Lemma loop_blocks_without_dispatcher_witness :
  exists p' t,
    eventLoop (setDispatching false (started (NewProgram 0 0%Z))) 0
      (tMsg inc :: [tMsg quitMsg])
      = stuck p' (fst (Update 0 inc)) /\
    trace p' = trace (setDispatching false (started (NewProgram 0 0%Z))) ++ t /\
    updates t = [(0, inc)] /\ views t = [] /\ frames t = [].
Proof.
  refine (loop_blocks_without_dispatcher
            (setDispatching false (started (NewProgram 0 0%Z))) 0 inc
            [tMsg quitMsg] _ _ _); reflexivity.
Defined.

Lemma infrastructure_error_is_returned_witness :
  exists p' t,
    Run (NewProgram 0 0%Z) watcherError = exited p' 1 (Some resizeFailed) /\
    Start (NewProgram 0 0%Z) watcherError = Some (Some resizeFailed) /\
    trace p' = trace (looped (started (NewProgram 0 0%Z)) 0 [tMsg inc]) ++ t /\
    updates t = [] /\ views t = [1] /\ frames t = [View 1].
Proof.
  refine (infrastructure_error_is_returned (NewProgram 0 0%Z) watcherError
            (started (NewProgram 0 0%Z)) 0 true [tMsg inc] []
            (looped (started (NewProgram 0 0%Z)) 0 [tMsg inc]) 1 resizeFailed
            _ _ _ _ _); vm_compute; reflexivity.
Defined.

Lemma Run_cannot_be_repeated_witness :
  (forall p'' model' err',
     Run (ran (NewProgram 0 0%Z) scenario) again = exited p'' model' err' ->
     err' = Some ErrProgramKilled) /\
  exists p'' model',
    Run (ran (NewProgram 0 0%Z) scenario) again
      = exited p'' model' (Some ErrProgramKilled).
Proof.
  refine ((fun H => conj (proj1 H) (proj2 H _ _ _))
            (Run_cannot_be_repeated (NewProgram 0 0%Z) scenario
               (ran (NewProgram 0 0%Z) scenario) 3 None again
               (started (ran (NewProgram 0 0%Z) scenario)) 0 true true _ _));
    vm_compute; reflexivity.
Defined.

Lemma Run_shuts_down_once_witness :
  exists p' err' t,
    Run (NewProgram 0 0%Z) scenario = exited p' 3 err' /\
    trace p' = trace (looped (started (NewProgram 0 0%Z)) 0 (ticks scenario)) ++ t /\
    lifecycle t =
      [if ctxDone (looped (started (NewProgram 0 0%Z)) 0 (ticks scenario))
          || killBeforeCheck scenario
       then kill else stop] /\
    updates t = [] /\
    In cookedMode (map fst (syscalls t)) /\
    (hasRestoreOutput (NewProgram 0 0%Z) = true ->
     In restoreOutput (map fst (syscalls t))).
Proof.
  refine (Run_shuts_down_once (NewProgram 0 0%Z) scenario
            (started (NewProgram 0 0%Z)) 0 true
            (looped (started (NewProgram 0 0%Z)) 0 (ticks scenario)) 3 None
            _ _ _); vm_compute; reflexivity.
Defined.

Lemma setup_failure_skips_shutdown_witness :
  Run (failing (NewProgram 0 withAltScreen)) scenario =
    exited (started (failing (NewProgram 0 withAltScreen))) 0
      (Some (osError "not a terminal")) /\
  Start (failing (NewProgram 0 withAltScreen)) scenario =
    Some (Some (osError "not a terminal")) /\
  0 = initialModel (failing (NewProgram 0 withAltScreen)) /\
  ctxDone (started (failing (NewProgram 0 withAltScreen))) = true /\
  exists t,
    trace (started (failing (NewProgram 0 withAltScreen))) =
      trace (failing (NewProgram 0 withAltScreen)) ++ t /\
    lifecycle t = [] /\ updates t = [].
Proof.
  refine (setup_failure_skips_shutdown (failing (NewProgram 0 withAltScreen))
            (started (failing (NewProgram 0 withAltScreen))) 0
            (osError "not a terminal") scenario _).
  vm_compute; reflexivity.
Defined.

Lemma batch_reaches_the_dispatcher_witness :
  exists p' t,
    handle (batchMsg [Some (fun _ => inc); None; Some (fun _ => noop)]) 0
      (started (NewProgram 0 0%Z)) = goOn p' 0 /\
    trace p' = trace (started (NewProgram 0 0%Z)) ++ t /\
    queuedCmds t = [Some (fun _ => inc); None; Some (fun _ => noop)] /\
    updates t = [] /\ views t = [] /\
    handleCommands (map (@takenCmd _ _) (queuedCmds t)) =
      flat_map (fun cmd => match cmd with
                           | Some f => [goSend (f tt)]
                           | None => []
                           end)
        [Some (fun _ => inc); None; Some (fun _ => noop)].
Proof.
  refine (batch_reaches_the_dispatcher
            [Some (fun _ => inc); None; Some (fun _ => noop)] 0
            (started (NewProgram 0 0%Z)) _).
  vm_compute; reflexivity.
Defined.

Lemma signals_are_ignored_while_released_witness :
  handleSignals (looped (started (NewProgram 0 0%Z)) 0 [])
    (sgRelease :: repeat sgSignal 3 ++ sgRestore :: [sgKill; sgDone]) =
  handleSignals
    (fst (RestoreTerminal (fst (ReleaseTerminal
       (looped (started (NewProgram 0 0%Z)) 0 [])))))
    [sgKill; sgDone] /\
  handleSignals (looped (started (NewProgram 0 0%Z)) 0 [])
    (sgRelease :: repeat sgSignal 3 ++ [sgRestore; sgSignal]) =
  (fst (RestoreTerminal (fst (ReleaseTerminal
     (looped (started (NewProgram 0 0%Z)) 0 [])))),
   [quitMsg], channelClosed).
Proof.
  refine (signals_are_ignored_while_released
            (looped (started (NewProgram 0 0%Z)) 0 []) 3 [sgKill; sgDone] _).
  vm_compute; reflexivity.
Defined.

Lemma RestoreTerminal_failure_witness :
  ignoreSignals (fst (RestoreTerminal (failing (started (NewProgram 0 0%Z))))) = false /\
  exists t,
    trace (fst (RestoreTerminal (failing (started (NewProgram 0 0%Z))))) =
      trace (failing (started (NewProgram 0 0%Z))) ++ t /\
    ~ In enterAltScreen (calls t) /\
    ~ In (goSend repaintMsg) (spawns t) /\
    (In (rawMode, Some (osError "not a terminal")) (syscalls t) \/
     In (initCancelReader, Some (osError "not a terminal")) (syscalls t)).
Proof.
  refine (RestoreTerminal_failure (failing (started (NewProgram 0 0%Z)))
            (fst (RestoreTerminal (failing (started (NewProgram 0 0%Z)))))
            (osError "not a terminal") _).
  vm_compute; reflexivity.
Defined.

Lemma Quit_ends_a_waiting_loop_witness :
  Quit (looped (started (NewProgram 0 0%Z)) 0 [tMsg inc]) = [onSend quitMsg] /\
  eventLoop (started (NewProgram 0 0%Z)) 0 ([tMsg inc] ++ [tMsg quitMsg])
    = returned (setReceiving false (looped (started (NewProgram 0 0%Z)) 0 [tMsg inc]))
        1 None /\
  trace (setReceiving false (looped (started (NewProgram 0 0%Z)) 0 [tMsg inc]))
    = trace (looped (started (NewProgram 0 0%Z)) 0 [tMsg inc]) /\
  (forall q : Program string unit nat, fresh q -> Quit q = []).
Proof.
  refine (Quit_ends_a_waiting_loop (started (NewProgram 0 0%Z)) 0 [tMsg inc]
            (looped (started (NewProgram 0 0%Z)) 0 [tMsg inc]) 1 _).
  vm_compute; reflexivity.
Defined.

Lemma Send_reaches_the_transition_witness :
  Send inc (looped (started (NewProgram 0 0%Z)) 0 [tMsg inc]) = [onSend inc] /\
  exists p',
    eventLoop (started (NewProgram 0 0%Z)) 0 ([tMsg inc] ++ [tMsg inc])
      = parked p' (fst (Update 1 inc)) /\
    trace p' =
      trace (looped (started (NewProgram 0 0%Z)) 0 [tMsg inc]) ++
      transition
        (isStandard (renderer (looped (started (NewProgram 0 0%Z)) 0 [tMsg inc])))
        1 inc.
Proof.
  refine (Send_reaches_the_transition (started (NewProgram 0 0%Z)) 0 [tMsg inc]
            (looped (started (NewProgram 0 0%Z)) 0 [tMsg inc]) 1 inc _ _ _);
    vm_compute; reflexivity.
Defined.

Lemma startup_renders_the_initial_model_witness :
  0 = initialModel (NewProgram 0 withoutSignalHandler) /\
  dispatching (started (NewProgram 0 withoutSignalHandler)) = true /\
  exists t,
    trace (started (NewProgram 0 withoutSignalHandler)) =
      trace (NewProgram 0 withoutSignalHandler) ++ t /\
    inits t = [initialModel (NewProgram 0 withoutSignalHandler)] /\
    views t = [initialModel (NewProgram 0 withoutSignalHandler)] /\
    frames t = [View (initialModel (NewProgram 0 withoutSignalHandler))] /\
    updates t = [] /\
    spawns t = startupSpawns (NewProgram 0 withoutSignalHandler).
Proof.
  refine (startup_renders_the_initial_model
            (NewProgram 0 withoutSignalHandler)
            (started (NewProgram 0 withoutSignalHandler)) 0 true true _).
  vm_compute; reflexivity.
Defined.
